(** * A shallow embedding of the albert-readeck plugin (src/__init__.py)

    The plugin keeps a searchable index of the bookmarks of a Readeck
    instance.  A background [LinkFetcherThread] calls [fetchIndexItems]
    periodically; [fetchIndexItems] drains the paginating generator
    [_get_links], turns every bookmark into an index item
    ([_create_filters], [_gen_item]) and hands the batch to the host with
    [setIndexItems].  Python strings are modelled as [string] (UTF-8 bytes
    for the non-ASCII star), Python ints as [Z], dicts of headers as
    association lists, and the network as an oracle from requests to
    outcomes. *)

From Stdlib Require Import String Ascii List ZArith Bool Lia.
Import ListNotations.
Open Scope string_scope.
Open Scope Z_scope.

(** ** Strings *)

(** [sep.join(xs)] *)
Fixpoint py_join (sep : string) (xs : list string) : string :=
  match xs with
  | [] => ""
  | [x] => x
  | x :: rest => x ++ sep ++ py_join sep rest
  end.

(** Decimal rendering of a non-negative int, as [str(n)] / [urlencode]. *)
Fixpoint uint_to_string (d : Decimal.uint) : string :=
  match d with
  | Decimal.Nil => ""
  | Decimal.D0 d => "0" ++ uint_to_string d
  | Decimal.D1 d => "1" ++ uint_to_string d
  | Decimal.D2 d => "2" ++ uint_to_string d
  | Decimal.D3 d => "3" ++ uint_to_string d
  | Decimal.D4 d => "4" ++ uint_to_string d
  | Decimal.D5 d => "5" ++ uint_to_string d
  | Decimal.D6 d => "6" ++ uint_to_string d
  | Decimal.D7 d => "7" ++ uint_to_string d
  | Decimal.D8 d => "8" ++ uint_to_string d
  | Decimal.D9 d => "9" ++ uint_to_string d
  end.

Definition py_str_int (z : Z) : string :=
  if z <? 0 then "-" ++ uint_to_string (N.to_uint (Z.to_N (- z)))
  else uint_to_string (N.to_uint (Z.to_N z)).

(** ASCII case folding, as used by the case-insensitive header dict of
    [requests] ([CaseInsensitiveDict] compares [key.lower()]). *)
Definition ascii_lower (c : ascii) : ascii :=
  let n := nat_of_ascii c in
  if andb (Nat.leb 65 n) (Nat.leb n 90) then ascii_of_nat (n + 32) else c.

Fixpoint str_lower (s : string) : string :=
  match s with
  | EmptyString => EmptyString
  | String c s' => String (ascii_lower c) (str_lower s')
  end.

(** ** Python whitespace and [int(s)]

    Strings hold the UTF-8 encoding of Python's [str].  [str.isspace()]
    holds for the code points U+0009..U+000D, U+001C..U+0020, U+0085,
    U+00A0, U+1680, U+2000..U+200A, U+2028, U+2029, U+202F, U+205F and
    U+3000; [py_space_utf8] lists their encodings. *)
Definition utf8_bytes (l : list nat) : string := string_of_list_ascii (map ascii_of_nat l).

Definition py_space_utf8 : list string :=
  map utf8_bytes
    [[9]; [10]; [11]; [12]; [13]; [28]; [29]; [30]; [31]; [32];
     [194; 133]; [194; 160]; [225; 154; 128];
     [226; 128; 128]; [226; 128; 129]; [226; 128; 130]; [226; 128; 131];
     [226; 128; 132]; [226; 128; 133]; [226; 128; 134]; [226; 128; 135];
     [226; 128; 136]; [226; 128; 137]; [226; 128; 138];
     [226; 128; 168]; [226; 128; 169]; [226; 128; 175]; [226; 129; 159];
     [227; 128; 128]]%nat.

(** The whitespace code point at the head of [s], if any. *)
Fixpoint space_prefix_in (l : list string) (s : string) : option string :=
  match l with
  | [] => None
  | p :: l' => if String.prefix p s then Some p else space_prefix_in l' s
  end.

Definition space_prefix (s : string) : option string := space_prefix_in py_space_utf8 s.

(** [s[n:]] on the bytes *)
Fixpoint str_drop (n : nat) (s : string) : string :=
  match n, s with
  | O, _ => s
  | S n', String _ s' => str_drop n' s'
  | S _, EmptyString => EmptyString
  end.

(** [not s.strip()]: [s] is made of whitespace only. *)
Fixpoint strip_empty_fuel (fuel : nat) (s : string) : bool :=
  match s with
  | EmptyString => true
  | _ =>
      match fuel with
      | O => false
      | S f =>
          match space_prefix s with
          | None => false
          | Some p => strip_empty_fuel f (str_drop (String.length p) s)
          end
      end
  end.

Definition strip_empty (s : string) : bool := strip_empty_fuel (String.length s) s.

(** [s.lstrip()] *)
Fixpoint py_lstrip_fuel (fuel : nat) (s : string) : string :=
  match fuel with
  | O => s
  | S f =>
      match space_prefix s with
      | None => s
      | Some p => py_lstrip_fuel f (str_drop (String.length p) s)
      end
  end.

Definition py_lstrip (s : string) : string := py_lstrip_fuel (String.length s) s.

(** [s.rstrip()]: cut at the first position from which only whitespace
    remains. *)
Fixpoint py_rstrip (s : string) : string :=
  match s with
  | EmptyString => EmptyString
  | String c s' => if strip_empty s then EmptyString else String c (py_rstrip s')
  end.

Definition digit_val (c : ascii) : option Z :=
  let n := nat_of_ascii c in
  if andb (Nat.leb 48 n) (Nat.leb n 57) then Some (Z.of_nat n - 48) else None.

(** [prev_digit] records whether the previous character was a digit (an
    underscore must sit between two digits). *)
Fixpoint parse_digits (acc : Z) (prev_digit : bool) (s : string) : option Z :=
  match s with
  | EmptyString => if prev_digit then Some acc else None
  | String c s' =>
      match digit_val c with
      | Some d => parse_digits (10 * acc + d) true s'
      | None =>
          if andb (Ascii.eqb c "_"%char) prev_digit
          then parse_digits acc false s' else None
      end
  end.

Fixpoint count_digits (s : string) : nat :=
  match s with
  | EmptyString => O
  | String c s' => match digit_val c with Some _ => S (count_digits s') | None => count_digits s' end
  end.

(** [sys.get_int_max_str_digits()] by default (CPython 3.11 and the
    security releases of 3.7 to 3.10): a decimal literal with more digits
    is refused with [ValueError]. *)
Definition int_max_str_digits : nat := 4300.

(** [int(s)] for a [str] taken from a header value.  [requests] decodes
    header values as ISO-8859-1, so they hold code points up to U+00FF
    only, among which the decimal digits are the ASCII ones.  [int] strips
    the surrounding whitespace, takes an optional sign, then decimal
    digits with single underscores between digits.  [None] is the
    [ValueError] Python raises. *)
Definition py_int_of_str (s : string) : option Z :=
  let t := py_rstrip (py_lstrip s) in
  if Nat.ltb int_max_str_digits (count_digits t) then None else
  match t with
  | String c rest =>
      if Ascii.eqb c "-"%char then option_map Z.opp (parse_digits 0 false rest)
      else if Ascii.eqb c "+"%char then parse_digits 0 false rest
      else parse_digits 0 false (String c rest)
  | EmptyString => None
  end.

(** ** Data model *)

(** A bookmark as returned (parsed from JSON) by [GET /api/bookmarks]. *)
Record bookmark := mk_bookmark {
  bm_id : string;
  bm_url : string;
  bm_title : string;
  bm_labels : list string;
  bm_is_marked : bool;
  bm_is_archived : bool;
  bm_href : string;
}.

Definition headers := list (string * string).

(** [CaseInsensitiveDict.get(key)] *)
Fixpoint hdr_get (k : string) (h : headers) : option string :=
  match h with
  | [] => None
  | (k', v) :: h' =>
      if String.eqb (str_lower k') (str_lower k) then Some v else hdr_get k h'
  end.

(** An HTTP request as handed to [requests.get/patch/delete]. *)
Record request := mk_request {
  rq_method : string;
  rq_url : string;
  rq_headers : headers;
  rq_json : option (list (string * bool));
  rq_timeout : option Z;     (** [None]: no [timeout=] argument *)
}.

(** What [requests] returns, or the exception it raises
    ([ConnectionError], [Timeout], ...). *)
Inductive http_outcome :=
  | Response (status : Z) (hdrs : headers) (body : list bookmark)
  | Transport_error.

(** [Response.ok]: [raise_for_status] raises exactly for 4xx and 5xx. *)
Definition resp_ok (status : Z) : bool :=
  negb ((400 <=? status) && (status <? 600)).

(** The network, seen by the plugin: an answer (or an exception) for every
    request. *)
Definition server := request -> http_outcome.

(** The configuration read by every request. *)
Record config := mk_config {
  cfg_plugin_id : string;
  cfg_instance_url : string;
  cfg_api_key : string;
}.

Definition limit : Z := 100.
Definition user_agent : string := "org.albert.linkding".

(** ** Record transformer: [_create_filters] and [_gen_item] *)

Definition create_filters (b : bookmark) : string :=
  py_join "," [bm_url b; bm_title b; py_join "," (bm_labels b)].

(** Python's [a or b] on strings. *)
Definition str_or (a b : string) : string :=
  match a with EmptyString => b | _ => a end.

Definition star_prefix : string := "⭐ ".

Definition item_text (b : bookmark) : string :=
  let title := str_or (bm_title b) (bm_url b) in
  if bm_is_marked b then star_prefix ++ title else title.

(** [s.replace(old, new, 1)] *)
Fixpoint replace_first (old new s : string) : string :=
  if String.prefix old s then
    match old with
    | EmptyString => new ++ s
    | _ => new ++ substring (String.length old) (String.length s) s
    end
  else match s with
       | EmptyString => EmptyString
       | String c s' => String c (replace_first old new s')
       end.

(** The operation a bound action's lambda calls. *)
Inductive action_op :=
  | Op_open_url (u : string)
  | Op_set_clipboard (u : string)
  | Op_archive_bookmark (bookmark_id : string)   (** [self._archive_bookmark] *)
  | Op_delete_bookmark (bookmark_id : string)    (** [self._delete_bookmark] *)
  | Op_fetch_index_items.                        (** [self.fetchIndexItems] *)

Record action := mk_action {
  act_id : string;
  act_text : string;
  act_op : action_op;
}.

Record standard_item := mk_standard_item {
  si_id : string;
  si_text : string;
  si_subtext : string;
  si_actions : list action;
}.

Definition gen_item (cfg : config) (b : bookmark) : standard_item :=
  {| si_id := cfg_plugin_id cfg;
     si_text := item_text b;
     si_subtext := py_join "," (bm_labels b) ++ ": " ++ bm_url b;
     si_actions :=
       [ mk_action "open" "Open in Readeck"
           (Op_open_url (replace_first "/api" "" (bm_href b)));
         mk_action "open" "Open bookmark URL" (Op_open_url (bm_url b));
         mk_action "copy" "Copy URL to clipboard" (Op_set_clipboard (bm_url b));
         mk_action "archive" "Archive bookmark" (Op_archive_bookmark (bm_id b));
         mk_action "delete" "Delete bookmark" (Op_archive_bookmark (bm_id b)) ] |}.

Record index_item := mk_index_item {
  ii_item : standard_item;
  ii_string : string;
}.

(** One iteration of the loop body of [fetchIndexItems]. *)
Definition to_index_item (cfg : config) (b : bookmark) : index_item :=
  mk_index_item (gen_item cfg b) (create_filters b).

(** ** Remote client requests *)

Definition auth_headers (cfg : config) : headers :=
  [("User-Agent", user_agent); ("Authorization", "Bearer " ++ cfg_api_key cfg)].

(** The request of one iteration of [_get_links]. *)
Definition list_page_request (cfg : config) (offset : Z) : request :=
  {| rq_method := "GET";
     rq_url := cfg_instance_url cfg ++ "/api/bookmarks?limit=" ++ py_str_int limit
               ++ "&offset=" ++ py_str_int offset;
     rq_headers := (auth_headers cfg ++ [("accept", "application/json")])%list;
     rq_json := None;
     rq_timeout := Some 5 |}.

Definition delete_bookmark_request (cfg : config) (bookmark_id : string) : request :=
  {| rq_method := "DELETE";
     rq_url := cfg_instance_url cfg ++ "/api/bookmarks/" ++ bookmark_id;
     rq_headers := auth_headers cfg;
     rq_json := None;
     rq_timeout := None |}.

Definition archive_bookmark_request (cfg : config) (bookmark_id : string) : request :=
  {| rq_method := "PATCH";
     rq_url := cfg_instance_url cfg ++ "/api/bookmarks/" ++ bookmark_id ++ "/";
     rq_headers := auth_headers cfg;
     rq_json := Some [("is_archived", true)];
     rq_timeout := None |}.

(** The HTTP request an action performs first, if any. *)
Definition action_request (cfg : config) (op : action_op) : option request :=
  match op with
  | Op_archive_bookmark i => Some (archive_bookmark_request cfg i)
  | Op_delete_bookmark i => Some (delete_bookmark_request cfg i)
  | _ => None
  end.

(** ** The pager: the generator [_get_links]

    The loop variables of [_get_links]: [offset], [total] and
    [response_headers] ([None] before the first successful page). *)
Record pager_state := mk_pager_state {
  ps_offset : Z;
  ps_total : Z;
  ps_resp_headers : option headers;
}.

Definition pager_init : pager_state := mk_pager_state 0 1 None.

(** [not response_headers]: [None] and an empty header dict are falsy. *)
Definition headers_falsy (rh : option headers) : bool :=
  match rh with None => true | Some [] => true | Some _ => false end.

(** [int(response_headers.get("Total-Count", 1))]; [None] is a
    [ValueError]. *)
Definition total_of_headers (h : headers) : option Z :=
  match hdr_get "Total-Count" h with
  | None => Some 1
  | Some v => py_int_of_str v
  end.

(** Exceptions that can escape the generator. *)
Inductive py_exn :=
  | Exn_transport      (** raised by [requests.get] *)
  | Exn_value_error.   (** raised by [int(...)] on the Total-Count header *)

(** One evaluation of the loop condition and, if it holds, of the body. *)
Inductive pager_step_result :=
  | Step_yield (rq : request) (page : list bookmark) (s' : pager_state)
  | Step_break (rq : request) (status : Z)     (** warning logged, [break] *)
  | Step_raise (rq : request) (e : py_exn)
  | Step_done.                                 (** [offset <= total] false *)

Definition pager_step (cfg : config) (srv : server) (s : pager_state)
  : pager_step_result :=
  if ps_offset s <=? ps_total s then
    let rq := list_page_request cfg (ps_offset s) in
    match srv rq with
    | Transport_error => Step_raise rq Exn_transport
    | Response st h body =>
        if resp_ok st then
          if headers_falsy (ps_resp_headers s) then
            match total_of_headers h with
            | Some t => Step_yield rq body (mk_pager_state (ps_offset s + limit) t (Some h))
            | None => Step_raise rq Exn_value_error
            end
          else Step_yield rq body
                 (mk_pager_state (ps_offset s + limit) (ps_total s) (ps_resp_headers s))
        else Step_break rq st
    end
  else Step_done.

(** How a run of the generator ends. *)
Inductive pager_end :=
  | End_exhausted
  | End_break (rq : request) (status : Z)
  | End_raise (rq : request) (e : py_exn).

(** Draining the generator, [fuel] bounding the number of loop-condition
    evaluations ([None] when it runs out).  The result lists every yielded
    page with the request that fetched it. *)
Fixpoint pager_run (fuel : nat) (cfg : config) (srv : server) (s : pager_state)
  : option (list (request * list bookmark) * pager_end) :=
  match fuel with
  | O => None
  | S n =>
      match pager_step cfg srv s with
      | Step_done => Some ([], End_exhausted)
      | Step_break rq st => Some ([], End_break rq st)
      | Step_raise rq e => Some ([], End_raise rq e)
      | Step_yield rq page s' =>
          match pager_run n cfg srv s' with
          | Some (pages, e) => Some ((rq, page) :: pages, e)
          | None => None
          end
      end
  end.

(** Every request the run issued, in order. *)
Definition pager_requests (r : list (request * list bookmark) * pager_end)
  : list request :=
  let '(pages, e) := r in
  (map fst pages ++ match e with
                    | End_exhausted => []
                    | End_break rq _ => [rq]
                    | End_raise rq _ => [rq]
                    end)%list.

(** States of [_get_links] reachable from its start. *)
Inductive pager_reach (cfg : config) (srv : server) : pager_state -> Prop :=
  | reach_init : pager_reach cfg srv pager_init
  | reach_step s rq page s' :
      pager_reach cfg srv s ->
      pager_step cfg srv s = Step_yield rq page s' ->
      pager_reach cfg srv s'.

(** ** A refresh cycle: [fetchIndexItems] *)

Inductive log_entry :=
  | Log_warning (msg : string)
  | Log_info (indexed : nat).    (** "Indexed {} bookmarks [..ms]" *)

Record plugin := mk_plugin {
  pl_cfg : config;
  pl_index_items : list index_item;   (** [self._index_items] *)
  pl_installed : list index_item;     (** the last list given to [setIndexItems] *)
  pl_log : list log_entry;
}.

Definition break_warning (rq : request) (status : Z) : log_entry :=
  Log_warning ("Got response " ++ py_str_int status ++ " querying " ++ rq_url rq).

(** [fetchIndexItems]: the items of every yielded page are appended to
    [self._index_items]; an exception escaping the generator leaves the
    method there, otherwise the list is installed, logged and reset.  The
    second component is the exception raised to the caller, if any. *)
Definition fetch_index_items (fuel : nat) (srv : server) (p : plugin)
  : option (plugin * option py_exn) :=
  let cfg := pl_cfg p in
  match pager_run fuel cfg srv pager_init with
  | None => None
  | Some (pages, e) =>
      let acc := (pl_index_items p ++ map (to_index_item cfg) (concat (map snd pages)))%list in
      let log := (pl_log p ++ match e with
                              | End_break rq st => [break_warning rq st]
                              | _ => []
                              end)%list in
      match e with
      | End_raise _ ex =>
          Some (mk_plugin cfg acc (pl_installed p) log, Some ex)
      | _ =>
          Some (mk_plugin cfg [] acc (log ++ [Log_info (length acc)])%list, None)
      end
  end.

(** ** [LinkFetcherThread.run], one statement per step

    The thread interleaves with the caller of [stop()] at statement
    granularity (the GIL may switch threads between any two of them).
    [f_pc] is the program point:
    - [Pc_call]: about to call [self.__callback()] (start of [run], or
      after [is_set()] returned [False]);
    - [Pc_in_cycle]: inside the callback (a refresh cycle has started);
    - [Pc_wait_enter]: about to call [self.__stop_event.wait(...)];
    - [Pc_waiting]: blocked in [wait];
    - [Pc_check]: about to evaluate [self.__stop_event.is_set()];
    - [Pc_done]: [run] returned. *)
Inductive fetcher_pc :=
  | Pc_call | Pc_in_cycle | Pc_wait_enter | Pc_waiting | Pc_check | Pc_done.

Record fetcher := mk_fetcher {
  f_pc : fetcher_pc;
  f_stop_event : bool;     (** the [Event] flag *)
  f_cache_length : Z;      (** [self.__cache_length], in seconds *)
  f_clock : Z;             (** elapsed seconds *)
  f_deadline : Z;          (** when the current [wait] times out *)
  f_cycles : nat;          (** refresh cycles started *)
}.

(** [LinkFetcherThread(callback, cache_length)] *)
Definition fetcher_new (cache_length : Z) : fetcher :=
  mk_fetcher Pc_call false (cache_length * 60) 0 0 0.

Definition set_pc (s : fetcher) (pc : fetcher_pc) : fetcher :=
  mk_fetcher pc (f_stop_event s) (f_cache_length s) (f_clock s) (f_deadline s) (f_cycles s).

(** [stop()]: [self.__stop_event.set()]. *)
Definition fetcher_stop (s : fetcher) : fetcher :=
  mk_fetcher (f_pc s) true (f_cache_length s) (f_clock s) (f_deadline s) (f_cycles s).

Inductive flabel :=
  | L_call       (** [self.__callback()] invoked: a cycle starts *)
  | L_return     (** the callback returned *)
  | L_wait       (** [wait(self.__cache_length)] entered *)
  | L_wake       (** [wait] returned *)
  | L_exit       (** [is_set()] true: [return] *)
  | L_continue   (** [is_set()] false *)
  | L_tick       (** one second passes *)
  | L_stop       (** another thread calls [stop()] *)
  | L_raise.     (** an exception escapes the callback: [run] ends with it *)

Inductive fstep : fetcher -> flabel -> fetcher -> Prop :=
  | fs_call s :
      f_pc s = Pc_call ->
      fstep s L_call (mk_fetcher Pc_in_cycle (f_stop_event s) (f_cache_length s)
                        (f_clock s) (f_deadline s) (S (f_cycles s)))
  | fs_return s :
      f_pc s = Pc_in_cycle -> fstep s L_return (set_pc s Pc_wait_enter)
  | fs_wait s :
      f_pc s = Pc_wait_enter ->
      fstep s L_wait (mk_fetcher Pc_waiting (f_stop_event s) (f_cache_length s)
                        (f_clock s) (f_clock s + f_cache_length s) (f_cycles s))
  | fs_wake s :
      f_pc s = Pc_waiting ->
      (f_stop_event s = true \/ f_deadline s <= f_clock s) ->
      fstep s L_wake (set_pc s Pc_check)
  | fs_exit s :
      f_pc s = Pc_check -> f_stop_event s = true -> fstep s L_exit (set_pc s Pc_done)
  | fs_continue s :
      f_pc s = Pc_check -> f_stop_event s = false -> fstep s L_continue (set_pc s Pc_call)
  | fs_tick s :
      fstep s L_tick (mk_fetcher (f_pc s) (f_stop_event s) (f_cache_length s)
                        (f_clock s + 1) (f_deadline s) (f_cycles s))
  | fs_stop s :
      fstep s L_stop (fetcher_stop s)
  | fs_raise s :
      f_pc s = Pc_in_cycle -> fstep s L_raise (set_pc s Pc_done).

Inductive fsteps : fetcher -> list flabel -> fetcher -> Prop :=
  | fsteps_nil s : fsteps s [] s
  | fsteps_cons s l s' ls s'' :
      fstep s l s' -> fsteps s' ls s'' -> fsteps s (l :: ls) s''.

Definition freach (cache_length : Z) (s : fetcher) : Prop :=
  exists ls, fsteps (fetcher_new cache_length) ls s.

(** ** The plugin's scheduler thread and its reconfiguration

    [sc_current] is [self._thread]; [sc_old] are the threads it replaced
    (newest first).  The property setters run on the host's (single) UI
    thread; [Ui_joining] is the point inside the [cache_length] setter
    blocked in [self._thread.join()]. *)
Record sched_thread := mk_sched_thread {
  th_alive : bool;
  th_stop : bool;
  th_cache_length : Z;
}.

Inductive ui_pc := Ui_idle | Ui_joining.

Inductive cfg_value := CV_str (s : string) | CV_int (z : Z).

Record sched := mk_sched {
  sc_current : sched_thread;
  sc_old : list sched_thread;
  sc_ui : ui_pc;
  sc_cache_length : Z;
  sc_instance_url : string;
  sc_api_key : string;
  sc_written : list (string * cfg_value);   (** [writeConfig] calls, newest first *)
}.

(** [LinkFetcherThread(...)] followed by [start()]. *)
Definition spawn (cache_length : Z) : sched_thread := mk_sched_thread true false cache_length.

(** [Plugin.__init__], with the values [readConfig] returned. *)
Definition sched_init (url key : option string) (cl : option Z) : sched :=
  let url' := match url with Some (String _ _ as u) => u | _ => "http://localhost:8000" end in
  let key' := match key with Some k => k | None => "" end in
  let cl' := match cl with Some z => if z =? 0 then 15 else z | None => 15 end in
  mk_sched (spawn cl') [] Ui_idle cl' url' key' [].

Definition clamp_cache_length (v : Z) : Z := if v <? 1 then 1 else v.

Definition kill (t : sched_thread) : sched_thread :=
  mk_sched_thread false (th_stop t) (th_cache_length t).

Fixpoint kill_nth (i : nat) (l : list sched_thread) : list sched_thread :=
  match i, l with
  | _, [] => []
  | O, t :: l' => kill t :: l'
  | S i', t :: l' => t :: kill_nth i' l'
  end.

Inductive slabel :=
  | SL_set_cache_length (v : Z)
  | SL_join                       (** [join()] returns, the setter resumes *)
  | SL_set_instance_url (v : string)
  | SL_set_api_key (v : string)
  | SL_current_exits              (** [self._thread]'s [run] returns *)
  | SL_old_exits (i : nat).       (** a replaced thread's [run] returns *)

Inductive sstep : sched -> slabel -> sched -> Prop :=
  (** [cache_length] setter, [is_alive()] true: [stop()], then block in [join()] *)
  | ss_cache_length_stop s v :
      sc_ui s = Ui_idle -> th_alive (sc_current s) = true ->
      sstep s (SL_set_cache_length v)
        (mk_sched (mk_sched_thread true true (th_cache_length (sc_current s)))
           (sc_old s) Ui_joining (clamp_cache_length v) (sc_instance_url s) (sc_api_key s)
           (("cache_length", CV_int (clamp_cache_length v)) :: sc_written s))
  (** [cache_length] setter, [is_alive()] false: start a replacement at once *)
  | ss_cache_length_spawn s v :
      sc_ui s = Ui_idle -> th_alive (sc_current s) = false ->
      sstep s (SL_set_cache_length v)
        (mk_sched (spawn (clamp_cache_length v)) (sc_current s :: sc_old s) Ui_idle
           (clamp_cache_length v) (sc_instance_url s) (sc_api_key s)
           (("cache_length", CV_int (clamp_cache_length v)) :: sc_written s))
  (** [join()] returns once the thread is dead; the replacement starts *)
  | ss_join s :
      sc_ui s = Ui_joining -> th_alive (sc_current s) = false ->
      sstep s SL_join
        (mk_sched (spawn (sc_cache_length s)) (sc_current s :: sc_old s) Ui_idle
           (sc_cache_length s) (sc_instance_url s) (sc_api_key s) (sc_written s))
  | ss_instance_url s v :
      sc_ui s = Ui_idle ->
      sstep s (SL_set_instance_url v)
        (mk_sched (sc_current s) (sc_old s) Ui_idle (sc_cache_length s) v (sc_api_key s)
           (("instance_url", CV_str v) :: sc_written s))
  | ss_api_key s v :
      sc_ui s = Ui_idle ->
      sstep s (SL_set_api_key v)
        (mk_sched (sc_current s) (sc_old s) Ui_idle (sc_cache_length s) (sc_instance_url s) v
           (("api_key", CV_str v) :: sc_written s))
  (** a thread's [run] returns: after [stop()], or by an exception escaping
      the callback *)
  | ss_current_exits s :
      th_alive (sc_current s) = true ->
      sstep s SL_current_exits
        (mk_sched (kill (sc_current s)) (sc_old s) (sc_ui s) (sc_cache_length s)
           (sc_instance_url s) (sc_api_key s) (sc_written s))
  | ss_old_exits s i :
      sstep s (SL_old_exits i)
        (mk_sched (sc_current s) (kill_nth i (sc_old s)) (sc_ui s) (sc_cache_length s)
           (sc_instance_url s) (sc_api_key s) (sc_written s)).

Inductive sreach (s0 : sched) : sched -> Prop :=
  | sreach_init : sreach s0 s0
  | sreach_step s l s' : sreach s0 s -> sstep s l s' -> sreach s0 s'.

Definition count_alive (s : sched) : nat :=
  length (filter th_alive (sc_current s :: sc_old s)).

(** ** Mutating actions: [_archive_bookmark] and [_delete_bookmark]

    Both issue their request and, when the response is ok, run a refresh
    cycle; otherwise they log [warning("Got response {}".format(response))],
    where [str(response)] is ["<Response [status]>"].  An exception raised
    by [requests] propagates.  (The [debug] lines are not recorded.) *)
Definition response_repr (status : Z) : string :=
  "<Response [" ++ py_str_int status ++ "]>".

Definition archive_bookmark (fuel : nat) (srv : server) (p : plugin) (bookmark_id : string)
  : option (plugin * option py_exn) :=
  match srv (archive_bookmark_request (pl_cfg p) bookmark_id) with
  | Transport_error => Some (p, Some Exn_transport)
  | Response st _ _ =>
      if resp_ok st then fetch_index_items fuel srv p
      else Some (mk_plugin (pl_cfg p) (pl_index_items p) (pl_installed p)
                   (pl_log p ++ [Log_warning ("Got response " ++ response_repr st)])%list,
                 None)
  end.

Definition delete_bookmark (fuel : nat) (srv : server) (p : plugin) (bookmark_id : string)
  : option (plugin * option py_exn) :=
  match srv (delete_bookmark_request (pl_cfg p) bookmark_id) with
  | Transport_error => Some (p, Some Exn_transport)
  | Response st _ _ =>
      if resp_ok st then fetch_index_items fuel srv p
      else Some (mk_plugin (pl_cfg p) (pl_index_items p) (pl_installed p)
                   (pl_log p ++ [Log_warning ("Got response " ++ response_repr st)])%list,
                 None)
  end.

(** ** [handleTriggerQuery]

    [query.string.strip()] is empty exactly when [strip_empty] holds. *)
Definition md_name : string := "Readeck".

Definition intro_item : standard_item :=
  mk_standard_item "" md_name "Search for a page saved in Readeck" [].

Definition refresh_item : standard_item :=
  mk_standard_item "" "Refresh cache index" "Refresh indexed bookmarks"
    [mk_action "refresh" "Refresh readeck index" Op_fetch_index_items].

(** The items [handleTriggerQuery] adds to the query, in order;
    [index_search] is the host's [TriggerQueryHandler.handleTriggerQuery]
    over the installed index. *)
Definition handle_trigger_query (index_search : string -> list standard_item) (q : string)
  : list standard_item :=
  ((if strip_empty q then [intro_item] else index_search q) ++ [refresh_item])%list.

(** ASCII letters, which no decimal literal contains. *)
Definition is_ascii_letter (c : ascii) : bool :=
  let n := nat_of_ascii c in
  orb (andb (Nat.leb 65 n) (Nat.leb n 90)) (andb (Nat.leb 97 n) (Nat.leb n 122)).

Fixpoint has_ascii_letter (s : string) : bool :=
  match s with
  | EmptyString => false
  | String c s' => is_ascii_letter c || has_ascii_letter s'
  end.

(** [pat in s] *)
Fixpoint str_contains (pat s : string) : bool :=
  String.prefix pat s || match s with
                         | EmptyString => false
                         | String _ s' => str_contains pat s'
                         end.

(** Scheduler runs with their labels. *)
Inductive ssteps : sched -> list slabel -> sched -> Prop :=
  | ssteps_nil s : ssteps s [] s
  | ssteps_cons s l s' ls s'' :
      sstep s l s' -> ssteps s' ls s'' -> ssteps s (l :: ls) s''.

Definition is_set_cache_length (l : slabel) : bool :=
  match l with SL_set_cache_length _ => true | _ => false end.

(** Where a fetcher stands relative to a cycle started at clock [c0], for a
    wait interval of [len] seconds. *)
Definition rate_inv (c0 len : Z) (t : fetcher) : Prop :=
  f_cache_length t = len /\
  match f_pc t with
  | Pc_in_cycle | Pc_wait_enter => c0 <= f_clock t
  | Pc_waiting => c0 + len <= f_deadline t
  | Pc_check => f_stop_event t = true \/ c0 + len <= f_clock t
  | Pc_call => c0 + len <= f_clock t
  | Pc_done => True
  end.

(** * Properties *)

(** ** Record transformer *)

(** C7: the display text is the title, or the url when the title is empty,
    with the star prefix when the bookmark is marked; the filter string is
    [url + "," + title + "," + join(labels, ",")]; on the spec's example
    they are ["⭐ http://x"] and ["http://x,,a,b"]. *)
Theorem transform_text_and_filter :
  (forall cfg b,
     si_text (gen_item cfg b) =
       (if bm_is_marked b then star_prefix else "") ++
       (if String.eqb (bm_title b) "" then bm_url b else bm_title b)
     /\ ii_string (to_index_item cfg b) =
          bm_url b ++ "," ++ bm_title b ++ "," ++ py_join "," (bm_labels b))
  /\ (forall cfg i arch href,
        let b := mk_bookmark i "http://x" "" ["a"; "b"] true arch href in
        si_text (gen_item cfg b) = "⭐ http://x"
        /\ ii_string (to_index_item cfg b) = "http://x,,a,b").
Proof.
  split.
  - intros cfg [i u t ls m a h]; simpl. split; [|reflexivity].
    unfold item_text, str_or; simpl.
    destruct t; destruct m; reflexivity.
  - intros cfg i arch href; simpl. split; reflexivity.
Qed.

(** ** Action bindings *)

(** C1: in the actions bound to every record, the "delete" action calls
    [_archive_bookmark] with the record's id, exactly as the "archive"
    action does, so it issues the PATCH with [is_archived = true]; no
    record action calls [_delete_bookmark]. *)
Theorem delete_action_archives :
  forall cfg b,
    (exists a_arch a_del,
        In a_arch (si_actions (gen_item cfg b)) /\ act_id a_arch = "archive" /\
        In a_del (si_actions (gen_item cfg b)) /\ act_id a_del = "delete" /\
        act_op a_del = act_op a_arch)
    /\ (forall a, In a (si_actions (gen_item cfg b)) ->
          act_id a = "delete" \/ act_id a = "archive" ->
          act_op a = Op_archive_bookmark (bm_id b)
          /\ action_request cfg (act_op a) = Some (archive_bookmark_request cfg (bm_id b))
          /\ rq_method (archive_bookmark_request cfg (bm_id b)) = "PATCH"
          /\ rq_json (archive_bookmark_request cfg (bm_id b)) = Some [("is_archived", true)])
    /\ (forall a i, In a (si_actions (gen_item cfg b)) ->
          act_op a <> Op_delete_bookmark i
          /\ action_request cfg (act_op a) <> Some (delete_bookmark_request cfg i)).
Proof.
  intros cfg b. split; [|split].
  - exists (mk_action "archive" "Archive bookmark" (Op_archive_bookmark (bm_id b))).
    exists (mk_action "delete" "Delete bookmark" (Op_archive_bookmark (bm_id b))).
    simpl; repeat split; auto 6.
  - intros a Hin Hid; simpl in Hin.
    repeat destruct Hin as [<- | Hin]; simpl in Hid;
      try (destruct Hid as [Hid | Hid]; discriminate Hid);
      try contradiction; repeat split.
  - intros a i Hin; simpl in Hin.
    repeat destruct Hin as [<- | Hin]; try contradiction; simpl;
      split; try discriminate; intros H; injection H; discriminate.
Qed.

(** ** Requests of the remote client *)

(** C4: every request carries the fixed User-Agent and the bearer token;
    the list-page request has [timeout=5], but the PATCH of
    [_archive_bookmark] and the DELETE of [_delete_bookmark] are issued with
    no timeout at all. *)
Theorem archive_request_has_no_timeout :
  forall cfg off i,
    (forall rq, In rq [list_page_request cfg off; archive_bookmark_request cfg i;
                       delete_bookmark_request cfg i] ->
       hdr_get "User-Agent" (rq_headers rq) = Some user_agent
       /\ hdr_get "Authorization" (rq_headers rq) = Some ("Bearer " ++ cfg_api_key cfg))
    /\ rq_timeout (list_page_request cfg off) = Some 5
    /\ rq_timeout (archive_bookmark_request cfg i) = None
    /\ rq_timeout (delete_bookmark_request cfg i) = None.
Proof.
  intros cfg off i. split; [|repeat split].
  intros r Hin; simpl in Hin; repeat destruct Hin as [<- | Hin];
    try contradiction; split; reflexivity.
Qed.

(** ** Pagination *)

Lemma pager_run_S n cfg srv s :
  pager_run (S n) cfg srv s =
  match pager_step cfg srv s with
  | Step_done => Some ([], End_exhausted)
  | Step_break rq st => Some ([], End_break rq st)
  | Step_raise rq e => Some ([], End_raise rq e)
  | Step_yield rq page s' =>
      match pager_run n cfg srv s' with
      | Some (pages, e) => Some ((rq, page) :: pages, e)
      | None => None
      end
  end.
Proof. reflexivity. Qed.

Ltac ps_norm := cbn [ps_offset ps_total ps_resp_headers pager_init].

Lemma pager_step_done cfg srv s :
  ps_total s < ps_offset s -> pager_step cfg srv s = Step_done.
Proof.
  intros H; unfold pager_step.
  destruct (Z.leb_spec (ps_offset s) (ps_total s)); [lia | reflexivity].
Qed.

Lemma pager_step_capture cfg srv s st h body t :
  ps_offset s <= ps_total s ->
  srv (list_page_request cfg (ps_offset s)) = Response st h body ->
  resp_ok st = true ->
  headers_falsy (ps_resp_headers s) = true ->
  total_of_headers h = Some t ->
  pager_step cfg srv s
    = Step_yield (list_page_request cfg (ps_offset s)) body
        (mk_pager_state (ps_offset s + limit) t (Some h)).
Proof.
  intros Hle E ok Hf Ht; unfold pager_step.
  destruct (Z.leb_spec (ps_offset s) (ps_total s)); [|lia].
  rewrite E, ok, Hf, Ht; reflexivity.
Qed.

Lemma pager_step_keep cfg srv s st h body :
  ps_offset s <= ps_total s ->
  srv (list_page_request cfg (ps_offset s)) = Response st h body ->
  resp_ok st = true ->
  headers_falsy (ps_resp_headers s) = false ->
  pager_step cfg srv s
    = Step_yield (list_page_request cfg (ps_offset s)) body
        (mk_pager_state (ps_offset s + limit) (ps_total s) (ps_resp_headers s)).
Proof.
  intros Hle E ok Hf; unfold pager_step.
  destruct (Z.leb_spec (ps_offset s) (ps_total s)); [|lia].
  rewrite E, ok, Hf; reflexivity.
Qed.

Lemma hdr_get_some_nonempty k h v : hdr_get k h = Some v -> h <> [].
Proof. destruct h; [discriminate | intros _; discriminate]. Qed.

(** C5: when every page request succeeds and the first page reports
    [Total-Count: 250], the pager requests offsets 0, 100 and 200 and then
    stops. *)
Theorem pager_total_250_three_pages :
  forall cfg srv fuel h0,
    (4 <= fuel)%nat ->
    (forall rq, exists st h body, srv rq = Response st h body /\ resp_ok st = true) ->
    (exists st0 body0, srv (list_page_request cfg 0) = Response st0 h0 body0) ->
    hdr_get "Total-Count" h0 = Some "250" ->
    exists pages,
      pager_run fuel cfg srv pager_init = Some (pages, End_exhausted)
      /\ map fst pages = map (list_page_request cfg) [0; 100; 200].
Proof.
  intros cfg srv fuel h0 Hfuel Hall [st0 [body0 E0]] Htc.
  destruct fuel as [|[|[|[|n]]]]; try lia.
  assert (Hne := hdr_get_some_nonempty _ _ _ Htc).
  destruct (Hall (list_page_request cfg 0)) as [st0' [h0' [b0' [E0' ok0]]]].
  rewrite E0 in E0'; injection E0' as Es Eh Eb; subst st0' h0' b0'.
  destruct (Hall (list_page_request cfg 100)) as [st1 [h1 [b1 [E1 ok1]]]].
  destruct (Hall (list_page_request cfg 200)) as [st2 [h2 [b2 [E2 ok2]]]].
  assert (Ht : total_of_headers h0 = Some 250)
    by (unfold total_of_headers; rewrite Htc; reflexivity).
  assert (Hf : headers_falsy (Some h0) = false)
    by (destruct h0; [contradiction | reflexivity]).
  rewrite !pager_run_S.
  rewrite (pager_step_capture cfg srv pager_init _ _ _ _ ltac:(simpl; lia) E0 ok0 eq_refl Ht).
  ps_norm; change (0 + limit) with 100.
  rewrite pager_run_S, (pager_step_keep cfg srv (mk_pager_state 100 250 (Some h0)) _ _ _ ltac:(simpl; lia) E1 ok1 Hf).
  ps_norm; change (100 + limit) with 200.
  rewrite pager_run_S, (pager_step_keep cfg srv (mk_pager_state 200 250 (Some h0)) _ _ _ ltac:(simpl; lia) E2 ok2 Hf).
  ps_norm; change (200 + limit) with 300.
  rewrite pager_run_S, (pager_step_done cfg srv (mk_pager_state 300 250 (Some h0)) ltac:(simpl; lia)).
  eexists; split; reflexivity.
Qed.

(** C10: when the first page succeeds without a [Total-Count] header, the
    total is taken as 1 and the pager issues that one request only,
    whatever the server holds. *)
Theorem pager_no_total_count_one_page :
  forall cfg srv fuel st h body,
    (2 <= fuel)%nat ->
    srv (list_page_request cfg 0) = Response st h body ->
    resp_ok st = true ->
    hdr_get "Total-Count" h = None ->
    pager_run fuel cfg srv pager_init
      = Some ([(list_page_request cfg 0, body)], End_exhausted).
Proof.
  intros cfg srv fuel st h body Hfuel E ok Htc.
  destruct fuel as [|[|n]]; try lia.
  assert (Ht : total_of_headers h = Some 1)
    by (unfold total_of_headers; rewrite Htc; reflexivity).
  rewrite !pager_run_S.
  rewrite (pager_step_capture cfg srv pager_init _ _ _ _ ltac:(simpl; lia) E ok eq_refl Ht).
  ps_norm; change (0 + limit) with 100.
  rewrite pager_run_S, (pager_step_done cfg srv (mk_pager_state 100 1 (Some h)) ltac:(simpl; lia)).
  reflexivity.
Qed.

(** What a drained run of the generator has seen from the server. *)
Lemma pager_run_outcomes fuel cfg srv s pages e :
  pager_run fuel cfg srv s = Some (pages, e) ->
  Forall (fun '(r, page) => exists st h, srv r = Response st h page /\ resp_ok st = true) pages
  /\ (forall rq st, e = End_break rq st ->
        exists h body, srv rq = Response st h body /\ resp_ok st = false)
  /\ (forall rq, e = End_raise rq Exn_transport -> srv rq = Transport_error).
Proof.
  revert s pages e; induction fuel as [|n IH]; intros s pages e Hrun; [discriminate|].
  rewrite pager_run_S in Hrun; unfold pager_step in Hrun.
  destruct (ps_offset s <=? ps_total s).
  2: { injection Hrun as <- <-; repeat split; [constructor | discriminate | discriminate]. }
  destruct (srv (list_page_request cfg (ps_offset s))) as [st h body|] eqn:E.
  2: { injection Hrun as <- <-; repeat split; [constructor | discriminate |].
       intros rq Heq; injection Heq as <-; exact E. }
  destruct (resp_ok st) eqn:ok.
  2: { injection Hrun as <- <-; repeat split; [constructor | | discriminate].
       intros rq st' Heq; injection Heq as <- <-; eauto. }
  assert (Hcons : forall s', match pager_run n cfg srv s' with
                     | Some (pages0, e0) =>
                         Some ((list_page_request cfg (ps_offset s), body) :: pages0, e0)
                     | None => None end = Some (pages, e) ->
                  Forall (fun '(r, page) => exists st h, srv r = Response st h page
                                                 /\ resp_ok st = true) pages
                  /\ (forall rq st, e = End_break rq st ->
                        exists h body, srv rq = Response st h body /\ resp_ok st = false)
                  /\ (forall rq, e = End_raise rq Exn_transport -> srv rq = Transport_error)).
  { intros s' H. destruct (pager_run n cfg srv s') as [[pages0 e0]|] eqn:R; [|discriminate].
    injection H as <- <-. destruct (IH _ _ _ R) as [Hf [Hb Hr]].
    repeat split; auto. constructor; eauto. }
  destruct (headers_falsy (ps_resp_headers s)).
  - destruct (total_of_headers h); [apply (Hcons _ Hrun)|].
    injection Hrun as <- <-; repeat split; [constructor | discriminate | discriminate].
  - apply (Hcons _ Hrun).
Qed.

(** The loop variables of [_get_links] in every reachable state: before
    the first successful page the state is the initial one; afterwards
    [total] is the value read from the captured headers, and captured
    headers that are empty (falsy) leave the loop condition false. *)
Lemma pager_reach_inv cfg srv s :
  pager_reach cfg srv s ->
  (ps_resp_headers s = None -> s = pager_init)
  /\ (forall h, ps_resp_headers s = Some h ->
        total_of_headers h = Some (ps_total s) /\ (h = [] -> ps_total s < ps_offset s)).
Proof.
  induction 1 as [|s rq page s' Hr [IHn IHs] Hstep].
  - split; [reflexivity | discriminate].
  - unfold pager_step in Hstep.
    destruct (Z.leb_spec (ps_offset s) (ps_total s)) as [Hle|]; [|discriminate].
    destruct (srv (list_page_request cfg (ps_offset s))) as [st h body|]; [|discriminate].
    destruct (resp_ok st); [|discriminate].
    destruct (ps_resp_headers s) as [h'|] eqn:Eh.
    + destruct (IHs h' eq_refl) as [Ht' Hemp].
      destruct h' as [|kv h''].
      * specialize (Hemp eq_refl); lia.
      * simpl in Hstep. injection Hstep as <- <- <-; simpl.
        split; [discriminate|]. intros h0 Heq; injection Heq as <-.
        split; [exact Ht' | discriminate].
    + pose proof (IHn eq_refl) as Hs0; rewrite Hs0 in Hstep; simpl in Hstep.
      destruct (total_of_headers h) as [t|] eqn:Et; [|discriminate].
      injection Hstep as <- <- <-; simpl.
      split; [discriminate|]. intros h0 Heq; injection Heq as <-.
      split; [exact Et|]. intros ->. unfold total_of_headers in Et; simpl in Et.
      injection Et as <-. unfold limit; lia.
Qed.

(** C8: the headers kept by the pager are those of the first successful
    page, and once they are captured every later iteration keeps them and
    keeps [total] (the loop bound) as read from them, whatever Total-Count
    the later pages report. *)
Theorem pager_total_captured_once :
  forall cfg srv,
    (forall rq page s',
       pager_step cfg srv pager_init = Step_yield rq page s' ->
       exists st h body, srv rq = Response st h body /\ ps_resp_headers s' = Some h)
    /\ (forall s h rq page s',
          pager_reach cfg srv s ->
          ps_resp_headers s = Some h ->
          pager_step cfg srv s = Step_yield rq page s' ->
          ps_resp_headers s' = Some h /\ ps_total s' = ps_total s
          /\ total_of_headers h = Some (ps_total s)).
Proof.
  intros cfg srv; split.
  - intros rq page s' Hstep. unfold pager_step in Hstep; simpl in Hstep.
    destruct (srv (list_page_request cfg 0)) as [st h body|] eqn:E; [|discriminate].
    destruct (resp_ok st); [|discriminate].
    destruct (total_of_headers h); [|discriminate].
    injection Hstep as <- <- <-. exists st, h, body; auto.
  - intros s h rq page s' Hr Eh Hstep.
    destruct (proj2 (pager_reach_inv _ _ _ Hr) h Eh) as [Ht Hemp].
    unfold pager_step in Hstep.
    destruct (Z.leb_spec (ps_offset s) (ps_total s)) as [Hle|]; [|discriminate].
    destruct (srv (list_page_request cfg (ps_offset s))) as [st h' body|]; [|discriminate].
    destruct (resp_ok st); [|discriminate].
    rewrite Eh in Hstep. destruct h as [|kv h0]; [specialize (Hemp eq_refl); lia|].
    simpl in Hstep. injection Hstep as <- <- <-; simpl. auto.
Qed.

(** ** Refresh cycles *)


(** A refresh cycle that fails on the network. *)
Definition srv_down : server := fun _ => Transport_error.

Definition plugin0 : plugin := mk_plugin (mk_config "readeck" "http://localhost:8000" "") [] [] [].

(** C2, as stated, fails: when the first page request raises a transport
    error, [fetchIndexItems] raises it to its caller and logs no warning. *)
Lemma fetch_raises_on_transport_error :
  fetch_index_items 1 srv_down plugin0 = Some (plugin0, Some Exn_transport)
  /\ ~ (forall fuel srv p p' r,
          fetch_index_items fuel srv p = Some (p', r) -> r = None).
Proof.
  split; [reflexivity|].
  intros H. specialize (H 1%nat srv_down plugin0 plugin0 (Some Exn_transport) eq_refl).
  discriminate H.
Qed.

(** C2, amended: a page answered with a non-ok status is logged as a
    warning, ends the pagination, and the cycle returns normally; a
    transport failure is not caught: it is not logged, the cycle raises it
    to its caller and the installed index is left as it was. *)
Theorem page_error_handling :
  forall fuel srv p p' r pages e,
    pager_run fuel (pl_cfg p) srv pager_init = Some (pages, e) ->
    fetch_index_items fuel srv p = Some (p', r) ->
    (forall rq st, e = End_break rq st ->
       (exists h body, srv rq = Response st h body /\ resp_ok st = false)
       /\ r = None /\ In (break_warning rq st) (pl_log p'))
    /\ (forall rq, e = End_raise rq Exn_transport ->
          srv rq = Transport_error /\ r = Some Exn_transport
          /\ pl_installed p' = pl_installed p /\ pl_log p' = pl_log p)
    /\ ((forall rq ex, e <> End_raise rq ex) -> r = None).
Proof.
  intros fuel srv p p' r pages e Hrun Hfetch.
  destruct (pager_run_outcomes _ _ _ _ _ _ Hrun) as [_ [Hb Ht]].
  unfold fetch_index_items in Hfetch; rewrite Hrun in Hfetch.
  split; [|split].
  - intros rq st ->. injection Hfetch as <- <-.
    split; [apply Hb; reflexivity|]. split; [reflexivity|]. simpl.
    apply in_or_app; left; apply in_or_app; right; left; reflexivity.
  - intros rq ->. injection Hfetch as <- <-. simpl.
    rewrite app_nil_r. repeat split; auto.
  - intros Hne. destruct e as [|rq st|rq ex].
    + injection Hfetch as _ <-; reflexivity.
    + injection Hfetch as _ <-; reflexivity.
    + exfalso; exact (Hne rq ex eq_refl).
Qed.

(** ** Reconfiguration and the scheduler thread *)

Definition all_dead (l : list sched_thread) : Prop :=
  Forall (fun t => th_alive t = false) l.

Lemma kill_nth_all_dead i l : all_dead l -> all_dead (kill_nth i l).
Proof.
  revert i; induction l as [|t l IH]; intros i H; [destruct i; constructor|].
  inversion H as [|t' l' Ht Hl]; subst.
  destruct i; simpl; constructor; [reflexivity | exact Hl | exact Ht | apply IH, Hl].
Qed.

Lemma length_kill_nth i l : length (kill_nth i l) = length l.
Proof.
  revert i; induction l as [|t l IH]; intros i; destruct i; simpl; auto.
Qed.

Lemma all_dead_filter l : all_dead l -> filter th_alive l = [].
Proof. induction 1 as [|t l Ht _ IH]; simpl; [reflexivity | rewrite Ht; exact IH]. Qed.

(** The threads [self._thread] replaced have all terminated. *)
Lemma sreach_old_dead s0 s :
  sc_old s0 = [] -> sreach s0 s -> all_dead (sc_old s).
Proof.
  intros H0; induction 1 as [|s l s' _ IH Hst].
  - rewrite H0; constructor.
  - inversion Hst; subst; simpl; auto using kill_nth_all_dead; constructor; auto.
Qed.

Definition is_reconfiguration (l : slabel) : bool :=
  match l with
  | SL_set_cache_length _ | SL_set_instance_url _ | SL_set_api_key _ => true
  | _ => false
  end.

(** C3, as stated, fails: setting the API key (or the instance URL) while
    the scheduler thread runs leaves that thread running, its stop event
    unset. *)
Lemma credentials_change_keeps_thread :
  ~ (forall url key cl s l s',
       sreach (sched_init url key cl) s ->
       is_reconfiguration l = true ->
       sstep s l s' ->
       th_alive (sc_current s) = true ->
       th_stop (sc_current s') = true).
Proof.
  intros H.
  set (s := sched_init None None None).
  assert (Hst : sstep s (SL_set_api_key "k")
                  (mk_sched (sc_current s) (sc_old s) Ui_idle (sc_cache_length s)
                     (sc_instance_url s) "k" (("api_key", CV_str "k") :: sc_written s)))
    by (apply ss_api_key; reflexivity).
  specialize (H None None None s (SL_set_api_key "k") _ (sreach_init _) eq_refl Hst eq_refl).
  discriminate H.
Qed.

(** C3, amended: changing the interval stops the running scheduler thread
    and blocks in [join()]; a replacement starts only once the previous
    thread has terminated; changing the instance URL or API key leaves the
    scheduler thread alone; hence at most one scheduler thread is alive in
    every reachable state. *)
Theorem at_most_one_scheduler :
  forall url key cl s,
    sreach (sched_init url key cl) s ->
    (count_alive s <= 1)%nat
    /\ (forall l s', sstep s l s' -> sc_old s' = sc_current s :: sc_old s ->
          th_alive (sc_current s) = false)
    /\ (forall v s', sstep s (SL_set_cache_length v) s' -> th_alive (sc_current s) = true ->
          th_stop (sc_current s') = true /\ sc_ui s' = Ui_joining /\ sc_old s' = sc_old s
          /\ sc_cache_length s' = clamp_cache_length v)
    /\ (forall v s', sstep s (SL_set_instance_url v) s' \/ sstep s (SL_set_api_key v) s' ->
          sc_current s' = sc_current s /\ sc_old s' = sc_old s).
Proof.
  intros url key cl s Hr.
  pose proof (sreach_old_dead (sched_init url key cl) s eq_refl Hr) as Hdead.
  split; [|split; [|split]].
  - unfold count_alive; simpl. rewrite (all_dead_filter _ Hdead).
    destruct (th_alive (sc_current s)); simpl; lia.
  - intros l s' Hst Hold.
    assert (Hl := f_equal (@length _) Hold).
    inversion Hst; subst; simpl in *; auto;
      try rewrite length_kill_nth in Hl; exfalso; lia.
  - intros v s' Hst Ha. inversion Hst; subst; simpl; [auto | congruence].
  - intros v s' [Hst | Hst]; inversion Hst; subst; simpl; auto.
Qed.

(** ** The fetcher thread's loop *)

Definition is_call (l : flabel) : bool := match l with L_call => true | _ => false end.

Lemma fstep_keeps_stop s l s' :
  fstep s l s' -> f_stop_event s = true -> f_stop_event s' = true.
Proof. intros Hs H; inversion Hs; subst; simpl; auto. Qed.

Lemma fstep_keeps_cache_length s l s' :
  fstep s l s' -> f_cache_length s' = f_cache_length s.
Proof. intros Hs; inversion Hs; subst; reflexivity. Qed.

Lemma freach_cache_length cl s : freach cl s -> f_cache_length s = cl * 60.
Proof.
  intros [ls Hs]. remember (fetcher_new cl) as s0 eqn:E0.
  assert (f_cache_length s0 = cl * 60) by (subst; reflexivity).
  clear E0. induction Hs as [|s l s' ls s'' Hst _ IH]; auto.
  apply IH. rewrite (fstep_keeps_cache_length _ _ _ Hst); assumption.
Qed.

(** With the stop event set, only [L_continue] could lead back to
    [Pc_call], and it requires the event clear. *)
Lemma stopped_no_new_call s l s' :
  fstep s l s' -> f_stop_event s = true -> f_pc s <> Pc_call ->
  l <> L_call /\ f_pc s' <> Pc_call.
Proof.
  intros Hs Hstop Hpc; inversion Hs; subst; simpl;
    try (split; [discriminate | congruence]); congruence.
Qed.

Definition at_call (s : fetcher) : bool :=
  match f_pc s with Pc_call => true | _ => false end.

(** Once the stop event is set, at most one more cycle starts, and none
    unless the thread was between its passed check and the callback. *)
Lemma stopped_calls_at_most s ls s' :
  fsteps s ls s' -> f_stop_event s = true ->
  (length (filter is_call ls) <= if at_call s then 1 else 0)%nat.
Proof.
  induction 1 as [s|s l s1 ls s'' Hst Hrest IH]; intros Hstop; simpl; [lia|].
  specialize (IH (fstep_keeps_stop _ _ _ Hst Hstop)).
  unfold at_call in *.
  destruct (f_pc s) eqn:Epc.
  1: { inversion Hst; subst; simpl in *; try congruence; rewrite ?Epc in IH; lia. }
  all: destruct (stopped_no_new_call _ _ _ Hst Hstop ltac:(congruence)) as [Hl Hpc].
  all: destruct l; try congruence; simpl; destruct (f_pc s1); try congruence; lia.
Qed.

(** From any state with the stop event set, [run] returns through its own
    statements only: no timeout has to elapse. *)
Lemma stopped_exits s :
  f_stop_event s = true ->
  exists ls s', fsteps s ls s' /\ f_pc s' = Pc_done /\ f_clock s' = f_clock s
                /\ ~ In L_tick ls.
Proof.
  intros Hstop. destruct s as [pc stop cl clk dl cyc]; simpl in Hstop; subst stop.
  destruct pc.
  - exists [L_call; L_return; L_wait; L_wake; L_exit].
    eexists; split.
    econstructor; [apply fs_call; reflexivity|].
    econstructor; [apply fs_return; reflexivity|].
    econstructor; [apply fs_wait; reflexivity|].
    econstructor; [apply fs_wake; [reflexivity | left; reflexivity]|].
    econstructor; [apply fs_exit; reflexivity|]. constructor.
    simpl; split; [reflexivity | split; [reflexivity | intuition discriminate]].
  - exists [L_return; L_wait; L_wake; L_exit].
    eexists; split.
    econstructor; [apply fs_return; reflexivity|].
    econstructor; [apply fs_wait; reflexivity|].
    econstructor; [apply fs_wake; [reflexivity | left; reflexivity]|].
    econstructor; [apply fs_exit; reflexivity|]. constructor.
    simpl; split; [reflexivity | split; [reflexivity | intuition discriminate]].
  - exists [L_wait; L_wake; L_exit].
    eexists; split.
    econstructor; [apply fs_wait; reflexivity|].
    econstructor; [apply fs_wake; [reflexivity | left; reflexivity]|].
    econstructor; [apply fs_exit; reflexivity|]. constructor.
    simpl; split; [reflexivity | split; [reflexivity | intuition discriminate]].
  - exists [L_wake; L_exit].
    eexists; split.
    econstructor; [apply fs_wake; [reflexivity | left; reflexivity]|].
    econstructor; [apply fs_exit; reflexivity|]. constructor.
    simpl; split; [reflexivity | split; [reflexivity | intuition discriminate]].
  - exists [L_exit].
    eexists; split.
    econstructor; [apply fs_exit; reflexivity|]. constructor.
    simpl; split; [reflexivity | split; [reflexivity | intuition discriminate]].
  - exists []. eexists; split; [constructor|simpl; auto].
Qed.

Lemma fsteps_app s ls s' ls' s'' :
  fsteps s ls s' -> fsteps s' ls' s'' -> fsteps s (ls ++ ls') s''.
Proof. induction 1; simpl; auto. intros H'; econstructor; eauto. Qed.

Lemma fsteps_ticks n pc stop cl clk dl cyc :
  fsteps (mk_fetcher pc stop cl clk dl cyc) (repeat L_tick n)
         (mk_fetcher pc stop cl (clk + Z.of_nat n) dl cyc).
Proof.
  revert clk; induction n as [|n IH]; intros clk; simpl.
  - rewrite Z.add_0_r; constructor.
  - econstructor; [apply fs_tick|]. simpl.
    replace (clk + Z.pos (Pos.of_succ_nat n)) with (clk + 1 + Z.of_nat n) by lia.
    apply IH.
Qed.

(** C9, as stated, fails: with a one-minute interval, [stop()] called after
    the post-wait [is_set()] check returned [False] and before the callback
    is invoked leaves the thread about to start a new cycle with the stop
    event set. *)
Lemma stop_after_check_starts_cycle :
  ~ (forall cl s l s',
       freach cl s -> f_stop_event s = true -> fstep s l s' -> l <> L_call).
Proof.
  intros H.
  set (s := mk_fetcher Pc_call true 60 60 60 1).
  assert (Hr : freach 1 s).
  { exists ([L_call; L_return; L_wait] ++ repeat L_tick 60 ++ [L_wake; L_continue; L_stop])%list.
    econstructor; [apply fs_call; reflexivity|].
    econstructor; [apply fs_return; reflexivity|].
    econstructor; [apply fs_wait; reflexivity|].
    eapply fsteps_app; [apply fsteps_ticks|]. simpl.
    econstructor; [apply fs_wake; [reflexivity | right; simpl; lia]|].
    econstructor; [apply fs_continue; reflexivity|].
    econstructor; [apply fs_stop|]. constructor. }
  assert (Hc : fstep s L_call (mk_fetcher Pc_in_cycle true 60 60 60 2))
    by (apply fs_call; reflexivity).
  exact (H 1 s L_call _ Hr eq_refl Hc eq_refl).
Qed.

(** C9, amended: the thread starts its first refresh cycle at once; each
    wait lasts until [cache_length * 60] seconds have passed or the stop
    event is set; a new cycle follows a wait only when [is_set()] then finds
    the event clear; [stop()] is idempotent; once the event is set at most
    one more cycle starts (only when the thread was already past its check
    and before the callback), and the thread then returns without waiting
    for any timeout. *)
Theorem fetcher_loop_behaviour :
  forall cl,
    (exists s', fstep (fetcher_new cl) L_call s' /\ f_cycles s' = 1%nat /\ f_clock s' = 0)
    /\ (forall s s', freach cl s -> fstep s L_wait s' -> f_deadline s' = f_clock s + cl * 60)
    /\ (forall s s', fstep s L_wake s' -> f_stop_event s = true \/ f_deadline s <= f_clock s)
    /\ (forall s s', fstep s L_continue s' -> f_stop_event s = false /\ f_pc s' = Pc_call)
    /\ (forall s l s', fstep s l s' -> f_pc s' = Pc_call -> f_pc s <> Pc_call ->
          l = L_continue /\ f_stop_event s = false)
    /\ (forall s, fetcher_stop (fetcher_stop s) = fetcher_stop s)
    /\ (forall s ls s', fsteps s ls s' -> f_stop_event s = true ->
          (length (filter is_call ls) <= if at_call s then 1 else 0)%nat)
    /\ (forall s, f_stop_event s = true ->
          exists ls s', fsteps s ls s' /\ f_pc s' = Pc_done /\ f_clock s' = f_clock s
                        /\ ~ In L_tick ls).
Proof.
  intros cl. split; [|split; [|split; [|split; [|split; [|split; [|split]]]]]].
  - eexists; split; [apply fs_call; reflexivity | split; reflexivity].
  - intros s s' Hr Hs. inversion Hs; subst; simpl.
    rewrite (freach_cache_length _ _ Hr); reflexivity.
  - intros s s' Hs; inversion Hs; subst; assumption.
  - intros s s' Hs; inversion Hs; subst; auto.
  - intros s l s' Hs Hpc' Hpc; inversion Hs; subst; simpl in *; try congruence; auto.
  - intros s; reflexivity.
  - intros s ls s' Hs Hstop; exact (stopped_calls_at_most _ _ _ Hs Hstop).
  - exact stopped_exits.
Qed.

(** * Concrete runs *)

Definition cfg0 : config := mk_config "readeck" "http://localhost:8000" "secret".

Definition bk (i : string) : bookmark :=
  mk_bookmark i ("http://example.org/" ++ i) i ["read"] false false
    ("http://localhost:8000/api/bookmarks/" ++ i).

(** A server answering the list-page requests of [cfg] by offset, and
    [default] to anything else. *)
Definition page_server (cfg : config) (pages : list (Z * http_outcome))
  (default : http_outcome) : server :=
  fun rq =>
    match find (fun '(o, _) => String.eqb (rq_url rq) (rq_url (list_page_request cfg o))) pages with
    | Some (_, r) => r
    | None => default
    end.

Definition h250 : headers := [("Content-Type", "application/json"); ("Total-Count", "250")].

(** Every page succeeds; only the first reports 250, the others 999. *)
Definition srv_250 : server :=
  page_server cfg0 [(0, Response 200 h250 [bk "a"])]
    (Response 200 [("Total-Count", "999")] [bk "b"]).

(** The second page fails with a 500. *)
Definition srv_page2_fails : server :=
  page_server cfg0 [(0, Response 200 h250 [bk "a"]); (100, Response 500 [] [])]
    (Response 200 h250 [bk "c"]).

(** No Total-Count header, though the server holds more pages. *)
Definition srv_no_total : server :=
  page_server cfg0 [(0, Response 200 [("Content-Type", "application/json")] [bk "a"])]
    (Response 200 [] [bk "b"]).

Lemma pager_total_250_three_pages_witness :
  exists pages,
    pager_run 4 cfg0 srv_250 pager_init = Some (pages, End_exhausted)
    /\ map fst pages = map (list_page_request cfg0) [0; 100; 200].
Proof.
  apply (pager_total_250_three_pages cfg0 srv_250 4 h250).
  - lia.
  - intros rq. unfold srv_250, page_server; simpl.
    destruct (String.eqb (rq_url rq) _); eexists; eexists; eexists; split; reflexivity.
  - exists 200, [bk "a"]; reflexivity.
  - reflexivity.
Defined.

Lemma pager_no_total_count_one_page_witness :
  pager_run 2 cfg0 srv_no_total pager_init
  = Some ([(list_page_request cfg0 0, [bk "a"])], End_exhausted).
Proof.
  apply (pager_no_total_count_one_page cfg0 srv_no_total 2 200
           [("Content-Type", "application/json")]); [lia | reflexivity | reflexivity | reflexivity].
Defined.

Lemma pager_total_captured_once_witness :
  ps_resp_headers (mk_pager_state 200 250 (Some h250)) = Some h250
  /\ ps_total (mk_pager_state 200 250 (Some h250)) = ps_total (mk_pager_state 100 250 (Some h250))
  /\ total_of_headers h250 = Some 250.
Proof.
  apply (proj2 (pager_total_captured_once cfg0 srv_250)
           (mk_pager_state 100 250 (Some h250)) h250
           (list_page_request cfg0 100) [bk "b"]).
  - apply (reach_step _ _ pager_init (list_page_request cfg0 0) [bk "a"]);
      [constructor | vm_compute; reflexivity].
  - reflexivity.
  - vm_compute; reflexivity.
Defined.

Definition plugin_fresh : plugin := mk_plugin cfg0 [] [] [].

(** Page 0 holds one bookmark and reports 250; the next request fails in
    transport. *)
Definition srv_page2_down : server :=
  page_server cfg0 [(0, Response 200 h250 [bk "a"])] Transport_error.

(** Every request is answered 500. *)
Definition srv_500 : server := fun _ => Response 500 [] [].

(** The Total-Count header is in exponent notation, which [int()] refuses. *)
Definition srv_bad_total : server := fun _ => Response 200 [("Total-Count", "1e3")] [bk "a"].

Definition run_of (fuel : nat) (srv : server) : list (request * list bookmark) * pager_end :=
  match pager_run fuel cfg0 srv pager_init with
  | Some r => r
  | None => ([], End_exhausted)
  end.

Definition plugin_after (fuel : nat) (srv : server) (p : plugin) : plugin :=
  match fetch_index_items fuel srv p with
  | Some (p', _) => p'
  | None => p
  end.

(** The accumulator a fresh plugin is left with after a cycle against
    [srv_page2_down]: the item of page 0. *)
Definition plugin_leftover : plugin := mk_plugin cfg0 (map (to_index_item cfg0) [bk "a"]) [] [].



Lemma page_error_handling_witness :
  (exists h body, srv_page2_fails (list_page_request cfg0 100) = Response 500 h body
                  /\ resp_ok 500 = false)
  /\ (None : option py_exn) = None
  /\ In (break_warning (list_page_request cfg0 100) 500)
       [break_warning (list_page_request cfg0 100) 500; Log_info 1].
Proof.
  apply (proj1 (page_error_handling 3 srv_page2_fails plugin_fresh
                  (mk_plugin cfg0 [] (map (to_index_item cfg0) [bk "a"])
                     [break_warning (list_page_request cfg0 100) 500; Log_info 1])
                  None
                  [(list_page_request cfg0 0, [bk "a"])]
                  (End_break (list_page_request cfg0 100) 500)
                  ltac:(vm_compute; reflexivity) ltac:(vm_compute; reflexivity))
           _ _ eq_refl).
Defined.

(** Setting [cache_length] to -5 on a freshly started plugin: the running
    thread is stopped, exits, and is replaced by one with interval 1. *)
Definition sched_stopping : sched :=
  mk_sched (mk_sched_thread true true 15) [] Ui_joining 1 "http://localhost:8000" ""
    [("cache_length", CV_int 1)].

Definition sched_restarted : sched :=
  mk_sched (spawn 1) [mk_sched_thread false true 15] Ui_idle 1 "http://localhost:8000" ""
    [("cache_length", CV_int 1)].

Lemma set_cache_length_stops :
  sstep (sched_init None None None) (SL_set_cache_length (-5)) sched_stopping.
Proof. apply (ss_cache_length_stop (sched_init None None None) (-5)); reflexivity. Qed.

Lemma stopping_restarts :
  ssteps sched_stopping [SL_current_exits; SL_join] sched_restarted.
Proof.
  eapply ssteps_cons; [apply ss_current_exits; reflexivity|].
  eapply ssteps_cons; [apply ss_join; reflexivity|]. apply ssteps_nil.
Qed.

Definition sched_killed : sched :=
  mk_sched (mk_sched_thread false true 15) [] Ui_joining 1 "http://localhost:8000" ""
    [("cache_length", CV_int 1)].

Lemma stopping_exits : sstep sched_stopping SL_current_exits sched_killed.
Proof. apply ss_current_exits; reflexivity. Qed.

Lemma killed_joins : sstep sched_killed SL_join sched_restarted.
Proof. apply ss_join; reflexivity. Qed.

(** The API key set after the restart. *)
Definition sched_rekeyed : sched :=
  mk_sched (spawn 1) [mk_sched_thread false true 15] Ui_idle 1 "http://localhost:8000" "k"
    [("api_key", CV_str "k"); ("cache_length", CV_int 1)].

Lemma restarted_rekeyed : sstep sched_restarted (SL_set_api_key "k") sched_rekeyed.
Proof. apply ss_api_key; reflexivity. Qed.

(** The theorem along a run from startup: interval set to -5 (the thread is
    stopped), the thread exits, [join()] returns and the replacement
    starts, then the API key is changed. *)
Lemma at_most_one_scheduler_witness :
  (th_stop (sc_current sched_stopping) = true /\ sc_ui sched_stopping = Ui_joining
   /\ sc_old sched_stopping = [] /\ sc_cache_length sched_stopping = clamp_cache_length (-5))
  /\ (count_alive sched_stopping <= 1)%nat
  /\ (count_alive sched_killed <= 1)%nat
  /\ th_alive (sc_current sched_killed) = false
  /\ (count_alive sched_restarted <= 1)%nat
  /\ sc_current sched_rekeyed = sc_current sched_restarted
  /\ sc_old sched_rekeyed = sc_old sched_restarted.
Proof.
  set (s0 := sched_init None None None).
  assert (R1 : sreach s0 sched_stopping) by (eapply sreach_step; [apply sreach_init | exact set_cache_length_stops]).
  assert (R2 : sreach s0 sched_killed) by (eapply sreach_step; [exact R1 | exact stopping_exits]).
  assert (R3 : sreach s0 sched_restarted) by (eapply sreach_step; [exact R2 | exact killed_joins]).
  destruct (at_most_one_scheduler None None None s0 (sreach_init _)) as (_ & _ & I0 & _).
  destruct (at_most_one_scheduler None None None _ R1) as (A1 & _).
  destruct (at_most_one_scheduler None None None _ R2) as (A2 & J2 & _).
  destruct (at_most_one_scheduler None None None _ R3) as (A3 & _ & _ & K3).
  destruct (K3 "k" sched_rekeyed (or_intror restarted_rekeyed)) as [K3c K3o].
  split; [exact (I0 (-5) sched_stopping set_cache_length_stops eq_refl)|].
  split; [exact A1|]. split; [exact A2|].
  split; [exact (J2 SL_join sched_restarted killed_joins eq_refl)|].
  split; [exact A3|]. split; [exact K3c | exact K3o].
Defined.

(** * Further properties of the plugin *)

(** ** Pagination, for any server *)


(** The requests of one pagination run, from any point whose offset is a
    multiple of the limit, are for consecutive multiples of the limit. *)
Lemma pager_run_offsets cfg srv fuel :
  forall s k r,
    ps_offset s = 100 * Z.of_nat k ->
    pager_run fuel cfg srv s = Some r ->
    exists n, pager_requests r
              = map (fun j => list_page_request cfg (100 * Z.of_nat j)) (seq k n).
Proof.
  induction fuel as [|f IH]; intros s k r Hoff Hrun; [discriminate|].
  rewrite pager_run_S in Hrun. unfold pager_step in Hrun.
  destruct (ps_offset s <=? ps_total s).
  2: { injection Hrun as <-. exists 0%nat; reflexivity. }
  rewrite Hoff in Hrun.
  destruct (srv (list_page_request cfg (100 * Z.of_nat k))) as [st h body|].
  2: { injection Hrun as <-. exists 1%nat; reflexivity. }
  destruct (resp_ok st).
  2: { injection Hrun as <-. exists 1%nat; reflexivity. }
  assert (Hnext : forall s', ps_offset s' = 100 * Z.of_nat k + limit ->
            match pager_run f cfg srv s' with
            | Some (pages, e) => Some ((list_page_request cfg (100 * Z.of_nat k), body) :: pages, e)
            | None => None end = Some r ->
            exists n, pager_requests r
                      = map (fun j => list_page_request cfg (100 * Z.of_nat j)) (seq k n)).
  { intros s' Hoff' H.
    destruct (pager_run f cfg srv s') as [[pages e]|] eqn:R; [|discriminate].
    injection H as <-.
    destruct (IH s' (S k) (pages, e) ltac:(rewrite Hoff'; unfold limit; lia) R) as [n Hn].
    exists (S n). simpl. simpl in Hn. rewrite Hn. reflexivity. }
  destruct (headers_falsy (ps_resp_headers s)).
  - destruct (total_of_headers h).
    + eapply Hnext; [|exact Hrun]; reflexivity.
    + injection Hrun as <-. exists 1%nat; reflexivity.
  - eapply Hnext; [|exact Hrun]; reflexivity.
Qed.

(** Whatever the server answers, one pagination run requests offsets 0,
    100, 200, ... in increasing order, each at most once, and nothing
    else. *)
Theorem pager_requests_consecutive_offsets :
  forall cfg srv fuel r,
    pager_run fuel cfg srv pager_init = Some r ->
    exists n, pager_requests r
              = map (fun j => list_page_request cfg (100 * Z.of_nat j)) (seq 0 n).
Proof. intros cfg srv fuel r H. exact (pager_run_offsets cfg srv fuel pager_init 0 r eq_refl H). Qed.



(** ** Refresh cycles *)

(** The bookmarks a drained run yielded. *)
Definition run_items (cfg : config) (pages : list (request * list bookmark)) : list index_item :=
  map (to_index_item cfg) (concat (map snd pages)).

(** A cycle that completes empties [self._index_items] after installing
    it; a cycle that raises keeps there the items of the pages fetched
    before the exception and leaves the installed index as it was. *)
Lemma fetch_accumulator :
  forall fuel srv p p' r pages e,
    pager_run fuel (pl_cfg p) srv pager_init = Some (pages, e) ->
    fetch_index_items fuel srv p = Some (p', r) ->
    pl_cfg p' = pl_cfg p
    /\ (r = None -> pl_index_items p' = []
                    /\ pl_installed p' = (pl_index_items p ++ run_items (pl_cfg p) pages)%list)
    /\ (r <> None -> pl_index_items p' = (pl_index_items p ++ run_items (pl_cfg p) pages)%list
                     /\ pl_installed p' = pl_installed p).
Proof.
  intros fuel srv p p' r pages e Hrun Hf.
  unfold fetch_index_items in Hf; rewrite Hrun in Hf.
  destruct e as [|rq st|rq ex]; injection Hf as <- <-; simpl;
    repeat split; try reflexivity; try congruence.
Qed.

(** A cycle interrupted by an exception makes the next completed cycle
    install, in order, the accumulator the interrupted cycle started from,
    the interrupted cycle's items, and its own. *)
Theorem leftover_items_reinstalled :
  forall fuel srv1 srv2 p p1 p2 pages1 rq1 ex pages2 e2,
    pager_run fuel (pl_cfg p) srv1 pager_init = Some (pages1, End_raise rq1 ex) ->
    pager_run fuel (pl_cfg p) srv2 pager_init = Some (pages2, e2) ->
    fetch_index_items fuel srv1 p = Some (p1, Some ex) ->
    fetch_index_items fuel srv2 p1 = Some (p2, None) ->
    pl_installed p2
    = (pl_index_items p ++ run_items (pl_cfg p) pages1 ++ run_items (pl_cfg p) pages2)%list.
Proof.
  intros fuel srv1 srv2 p p1 p2 pages1 rq1 ex pages2 e2 R1 R2 F1 F2.
  destruct (fetch_accumulator _ _ _ _ _ _ _ R1 F1) as [Hc1 [_ H1]].
  destruct (H1 ltac:(discriminate)) as [Hacc1 _].
  rewrite <- Hc1 in R2.
  destruct (fetch_accumulator _ _ _ _ _ _ _ R2 F2) as [_ [H2 _]].
  destruct (H2 eq_refl) as [_ Hi]. rewrite Hi, Hacc1, Hc1, <- app_assoc. reflexivity.
Qed.

(** Every item a completed cycle installs (from the empty accumulator) is
    the transformation of a bookmark found in the body of a response the
    server answered ok. *)
Theorem installed_items_from_server :
  forall fuel srv p p',
    pl_index_items p = [] ->
    fetch_index_items fuel srv p = Some (p', None) ->
    forall it, In it (pl_installed p') ->
      exists rq st h body b,
        srv rq = Response st h body /\ resp_ok st = true /\ In b body
        /\ it = to_index_item (pl_cfg p) b.
Proof.
  intros fuel srv p p' Hacc Hf it Hin.
  destruct (pager_run fuel (pl_cfg p) srv pager_init) as [[pages e]|] eqn:R.
  2: { unfold fetch_index_items in Hf; rewrite R in Hf; discriminate. }
  destruct (fetch_accumulator _ _ _ _ _ _ _ R Hf) as [_ [H _]].
  destruct (H eq_refl) as [_ Hi]. rewrite Hi, Hacc in Hin; simpl in Hin.
  unfold run_items in Hin. apply in_map_iff in Hin as [b [<- Hb]].
  apply in_concat in Hb as [body [Hbody Hb]].
  apply in_map_iff in Hbody as [[rq body'] [Heq Hpg]]; simpl in Heq; subst body'.
  destruct (pager_run_outcomes _ _ _ _ _ _ R) as [Hall _].
  rewrite Forall_forall in Hall. destruct (Hall _ Hpg) as [st [h [E ok]]].
  exists rq, st, h, body, b; auto.
Qed.

(** When the very first page request gets a non-ok status, a cycle
    installs exactly the items left in the accumulator by earlier cycles
    that raised (none after a completed cycle), replacing the previous
    index, empties the accumulator and logs the warning. *)
Theorem first_page_error_clears_index :
  forall fuel srv p st h body,
    (1 <= fuel)%nat ->
    srv (list_page_request (pl_cfg p) 0) = Response st h body ->
    resp_ok st = false ->
    fetch_index_items fuel srv p
    = Some (mk_plugin (pl_cfg p) [] (pl_index_items p)
              (pl_log p ++ [break_warning (list_page_request (pl_cfg p) 0) st;
                            Log_info (length (pl_index_items p))])%list,
            None).
Proof.
  intros fuel srv p st h body Hf E ok.
  destruct fuel as [|fuel]; [lia|].
  unfold fetch_index_items. rewrite pager_run_S. unfold pager_step; simpl ps_offset.
  change (0 <=? ps_total pager_init) with true; cbv iota.
  rewrite E, ok. simpl. rewrite !app_nil_r, <- app_assoc. reflexivity.
Qed.

(** ** The "Open in Readeck" URL *)

Lemma prefix_before_slash (pat u r : string) :
  str_contains "/" pat = false ->
  String.prefix pat u = false ->
  String.prefix pat (u ++ String "/"%char r) = false.
Proof.
  revert u; induction pat as [|c pat IH]; intros u Hno Hp;
    [destruct u; discriminate Hp|].
  cbn [str_contains] in Hno. apply orb_false_iff in Hno as [Hc Hno].
  destruct u as [|c' u]; simpl.
  - destruct (ascii_dec c "/"%char) as [->|]; [destruct pat; simpl in Hc; discriminate Hc | reflexivity].
  - simpl in Hp. destruct (ascii_dec c c') as [<-|]; [|reflexivity].
    exact (IH u Hno Hp).
Qed.

Lemma substring_0_all n s : (String.length s <= n)%nat -> substring 0 n s = s.
Proof.
  revert n; induction s as [|c s IH]; intros n Hn; destruct n; simpl in *;
    try reflexivity; try lia.
  rewrite IH by lia; reflexivity.
Qed.

Lemma prefix_cons a s1 b s2 :
  String.prefix (String a s1) (String b s2)
  = if ascii_dec a b then String.prefix s1 s2 else false.
Proof. reflexivity. Qed.

Lemma replace_first_skip old new c s :
  String.prefix old (String c s) = false ->
  replace_first old new (String c s) = String c (replace_first old new s).
Proof. intros H. cbn [replace_first]. rewrite H. reflexivity. Qed.

(** [href.replace("/api", "", 1)] drops the first ["/api"]: the part
    before it is kept when it contains no ["/api"] itself. *)
Lemma replace_first_api (u rest : string) :
  str_contains "/api" u = false ->
  replace_first "/api" "" (u ++ "/api" ++ rest) = u ++ rest.
Proof.
  induction u as [|c u IH]; intros Hc.
  - assert (He : String.prefix "" rest = true) by (destruct rest; reflexivity).
    simpl. rewrite He. simpl. apply substring_0_all. lia.
  - cbn [str_contains] in Hc. apply orb_false_iff in Hc as [Hp Hc].
    assert (Hp' : String.prefix "/api" (String c (u ++ "/api" ++ rest)) = false).
    { rewrite prefix_cons in *. destruct (ascii_dec "/"%char c); [|reflexivity].
      apply prefix_before_slash; [reflexivity | exact Hp]. }
    change ((String c u ++ "/api" ++ rest)) with (String c (u ++ "/api" ++ rest)).
    rewrite (replace_first_skip _ _ _ _ Hp'), (IH Hc). reflexivity.
Qed.

(** The "Open in Readeck" action of a bookmark whose API link is
    [u ++ "/api" ++ rest] opens [u ++ rest] (the web page of the bookmark),
    provided [u] holds no ["/api"]. *)
Theorem open_in_readeck_url :
  forall cfg b u rest,
    bm_href b = u ++ "/api" ++ rest ->
    str_contains "/api" u = false ->
    act_op (hd (mk_action "" "" Op_fetch_index_items) (si_actions (gen_item cfg b)))
    = Op_open_url (u ++ rest).
Proof.
  intros cfg b u rest Hh Hu. simpl. rewrite Hh, (replace_first_api u rest Hu). reflexivity.
Qed.

(** ** The Total-Count header *)

Lemma has_letter_app (p r : string) :
  has_ascii_letter (p ++ r) = has_ascii_letter p || has_ascii_letter r.
Proof. induction p as [|c p IH]; simpl; [reflexivity|]. rewrite IH, orb_assoc. reflexivity. Qed.

Lemma prefix_drop (p s : string) :
  String.prefix p s = true -> s = p ++ str_drop (String.length p) s.
Proof.
  revert s; induction p as [|a p IH]; intros s H; [reflexivity|].
  destruct s as [|b s]; [discriminate H|].
  rewrite prefix_cons in H. destruct (ascii_dec a b) as [<-|]; [|discriminate H].
  simpl. f_equal. exact (IH s H).
Qed.

Lemma space_prefix_in_spec l s p :
  space_prefix_in l s = Some p -> In p l /\ String.prefix p s = true.
Proof.
  induction l as [|q l IH]; simpl; [discriminate|].
  destruct (String.prefix q s) eqn:E.
  - intros H; injection H as <-; auto.
  - intros H; destruct (IH H); auto.
Qed.

Lemma spaces_no_letter p : In p py_space_utf8 -> has_ascii_letter p = false.
Proof.
  intros H.
  assert (Hb : forallb (fun q => negb (has_ascii_letter q)) py_space_utf8 = true)
    by reflexivity.
  rewrite forallb_forall in Hb. apply Hb in H.
  destruct (has_ascii_letter p); [discriminate H | reflexivity].
Qed.

(** Dropping a whitespace code point keeps the letters. *)
Lemma space_prefix_letter s p :
  space_prefix s = Some p ->
  has_ascii_letter s = has_ascii_letter (str_drop (String.length p) s).
Proof.
  intros H. destruct (space_prefix_in_spec _ _ _ H) as [Hin Hp].
  rewrite (prefix_drop _ _ Hp) at 1. rewrite has_letter_app, (spaces_no_letter _ Hin).
  reflexivity.
Qed.

Lemma lstrip_letter fuel s :
  has_ascii_letter s = true -> has_ascii_letter (py_lstrip_fuel fuel s) = true.
Proof.
  revert s; induction fuel as [|f IH]; intros s H; simpl; [exact H|].
  destruct (space_prefix s) as [p|] eqn:E; [|exact H].
  apply IH. rewrite <- (space_prefix_letter _ _ E). exact H.
Qed.

Lemma strip_empty_no_letter fuel s :
  strip_empty_fuel fuel s = true -> has_ascii_letter s = false.
Proof.
  revert s; induction fuel as [|f IH]; intros s H; (destruct s as [|c s']; [reflexivity|]);
    simpl in H; [discriminate H|].
  destruct (space_prefix (String c s')) as [p|] eqn:E; [|discriminate H].
  rewrite (space_prefix_letter _ _ E). exact (IH _ H).
Qed.

Lemma rstrip_letter s :
  has_ascii_letter s = true -> has_ascii_letter (py_rstrip s) = true.
Proof.
  induction s as [|c s IH]; intros H; [exact H|].
  cbn [py_rstrip]. destruct (strip_empty (String c s)) eqn:E.
  - rewrite (strip_empty_no_letter _ _ E) in H. discriminate H.
  - simpl in H |- *. apply orb_true_iff in H as [H|H].
    + rewrite H. reflexivity.
    + rewrite (IH H), orb_true_r. reflexivity.
Qed.

Lemma letter_not_digit c :
  is_ascii_letter c = true -> digit_val c = None /\ Ascii.eqb c "_"%char = false.
Proof.
  intros H. split.
  - unfold is_ascii_letter, digit_val in *.
    destruct (Nat.leb_spec 48 (nat_of_ascii c)), (Nat.leb_spec (nat_of_ascii c) 57);
      simpl; try reflexivity.
    destruct (Nat.leb_spec 65 (nat_of_ascii c)), (Nat.leb_spec (nat_of_ascii c) 90),
      (Nat.leb_spec 97 (nat_of_ascii c)), (Nat.leb_spec (nat_of_ascii c) 122);
      simpl in H; try discriminate H; lia.
  - destruct (Ascii.eqb_spec c "_"%char) as [->|]; [discriminate H | reflexivity].
Qed.

Lemma parse_digits_letter acc b s :
  has_ascii_letter s = true -> parse_digits acc b s = None.
Proof.
  revert acc b; induction s as [|c s IH]; intros acc b H; [discriminate H|].
  simpl in H. simpl.
  destruct (is_ascii_letter c) eqn:Ec.
  - destruct (letter_not_digit _ Ec) as [-> ->]. reflexivity.
  - simpl in H. destruct (digit_val c); [exact (IH _ _ H)|].
    destruct (Ascii.eqb c "_"%char && b); [exact (IH _ _ H) | reflexivity].
Qed.

(** [int()] refuses any string holding an ASCII letter. *)
Lemma py_int_of_str_letter s : has_ascii_letter s = true -> py_int_of_str s = None.
Proof.
  intros H. unfold py_int_of_str.
  pose proof (rstrip_letter _ (lstrip_letter (String.length s) s H)) as Ht.
  fold (py_lstrip s) in Ht.
  destruct (Nat.ltb int_max_str_digits (count_digits (py_rstrip (py_lstrip s)))); [reflexivity|].
  destruct (py_rstrip (py_lstrip s)) as [|c rest]; [discriminate Ht|].
  simpl in Ht.
  destruct (Ascii.eqb_spec c "-"%char) as [->|_].
  - simpl in Ht. rewrite (parse_digits_letter _ _ _ Ht). reflexivity.
  - destruct (Ascii.eqb_spec c "+"%char) as [->|_].
    + simpl in Ht. exact (parse_digits_letter _ _ _ Ht).
    + apply parse_digits_letter. simpl. exact Ht.
Qed.

(** When the first page succeeds but its Total-Count header holds an ASCII
    letter (such as "1e3" or "n/a"), [int()] raises [ValueError] before the
    page is yielded: the cycle raises it and leaves the plugin state,
    accumulator included, unchanged. *)
Theorem letter_in_total_count_raises :
  forall fuel srv p st h body v,
    (1 <= fuel)%nat ->
    srv (list_page_request (pl_cfg p) 0) = Response st h body ->
    resp_ok st = true ->
    hdr_get "Total-Count" h = Some v ->
    has_ascii_letter v = true ->
    fetch_index_items fuel srv p = Some (p, Some Exn_value_error).
Proof.
  intros fuel srv p st h body v Hf E ok Hh Hl.
  pose proof (py_int_of_str_letter v Hl) as Hv.
  destruct fuel as [|fuel]; [lia|].
  unfold fetch_index_items. rewrite pager_run_S. unfold pager_step; simpl ps_offset.
  change (0 <=? ps_total pager_init) with true; cbv iota.
  rewrite E, ok. simpl headers_falsy; cbv iota.
  unfold total_of_headers; rewrite Hh, Hv. simpl.
  rewrite !app_nil_r. destruct p; reflexivity.
Qed.

(** ** The [cache_length] setter *)

Lemma ssteps_keep_cache_length v s ls s' :
  ssteps s ls s' ->
  Forall (fun l => is_set_cache_length l = false) ls ->
  sc_cache_length s = v ->
  (sc_ui s = Ui_idle -> th_cache_length (sc_current s) = v) ->
  sc_cache_length s' = v /\ (sc_ui s' = Ui_idle -> th_cache_length (sc_current s') = v).
Proof.
  induction 1 as [s|s l s1 ls s2 Hst _ IH]; intros Hls Hc Hth; [auto|].
  inversion Hls as [|? ? Hl Hls']; subst.
  apply IH; [exact Hls' | |]; inversion Hst; subst; simpl in *; try discriminate Hl;
    auto; congruence.
Qed.

(** Setting [cache_length] to [v] stores and writes [max(v, 1)] (values
    below one become one, others are kept), stops the running thread
    before waiting for it, and once the setter has returned (and until
    [cache_length] is set again) the thread in [self._thread] was created
    with [max(v, 1)]. *)
Theorem cache_length_setter_clamps :
  forall s v s1 ls s2,
    sstep s (SL_set_cache_length v) s1 ->
    ssteps s1 ls s2 ->
    Forall (fun l => is_set_cache_length l = false) ls ->
    1 <= clamp_cache_length v
    /\ (1 <= v -> clamp_cache_length v = v)
    /\ sc_written s1 = ("cache_length", CV_int (clamp_cache_length v)) :: sc_written s
    /\ (th_alive (sc_current s) = true -> th_stop (sc_current s1) = true)
    /\ sc_cache_length s2 = clamp_cache_length v
    /\ (sc_ui s2 = Ui_idle -> th_cache_length (sc_current s2) = clamp_cache_length v).
Proof.
  intros s v s1 ls s2 Hst Hs Hls.
  assert (H1 : 1 <= clamp_cache_length v).
  { unfold clamp_cache_length. destruct (Z.ltb_spec v 1); lia. }
  assert (H2 : 1 <= v -> clamp_cache_length v = v).
  { unfold clamp_cache_length. destruct (Z.ltb_spec v 1); lia. }
  assert (Hw : sc_written s1 = ("cache_length", CV_int (clamp_cache_length v)) :: sc_written s
               /\ (th_alive (sc_current s) = true -> th_stop (sc_current s1) = true)
               /\ sc_cache_length s1 = clamp_cache_length v
               /\ (sc_ui s1 = Ui_idle -> th_cache_length (sc_current s1) = clamp_cache_length v)).
  { inversion Hst; subst; simpl; repeat split; try reflexivity; try discriminate; congruence. }
  destruct Hw as (Hw & Hstop & Hc & Hth).
  destruct (ssteps_keep_cache_length _ _ _ _ Hs Hls Hc Hth) as [Hc2 Hth2].
  repeat split; assumption.
Qed.

(** ** The interval read at startup *)

(** [__init__] takes the stored [cache_length] as it is when it is not 0:
    a negative value is not clamped as the setter would, and the fetcher
    thread then never sleeps, every [wait] being over as soon as it is
    entered. *)
Theorem negative_stored_cache_length_no_wait :
  forall url key z,
    z < 0 ->
    sc_cache_length (sched_init url key (Some z)) = z
    /\ th_cache_length (sc_current (sched_init url key (Some z))) = z
    /\ (forall s s', freach (th_cache_length (sc_current (sched_init url key (Some z)))) s ->
          fstep s L_wait s' -> fstep s' L_wake (set_pc s' Pc_check)).
Proof.
  intros url key z Hz.
  assert (Hcl : (if z =? 0 then 15 else z) = z) by (destruct (Z.eqb_spec z 0); lia).
  unfold sched_init; simpl; rewrite Hcl.
  repeat split; try reflexivity.
  intros s s' Hr Hw. pose proof (freach_cache_length _ _ Hr) as Hc.
  inversion Hw; subst. apply fs_wake; [reflexivity|]. right. simpl. lia.
Qed.

(** ** Spacing of refresh cycles *)

Lemma fstep_clock_mono s l s' : fstep s l s' -> f_clock s <= f_clock s'.
Proof. intros Hs; inversion Hs; subst; simpl; lia. Qed.

Lemma fsteps_clock_mono s ls s' : fsteps s ls s' -> f_clock s <= f_clock s'.
Proof.
  induction 1 as [|s l s1 ls s2 Hst _ IH]; [lia|].
  pose proof (fstep_clock_mono _ _ _ Hst); lia.
Qed.

Lemma fstep_rate_inv c0 len s l s' :
  0 <= len -> rate_inv c0 len s -> fstep s l s' -> rate_inv c0 len s'.
Proof.
  intros Hlen [Hc Hpc] Hs. unfold rate_inv.
  inversion Hs as [? E|? E|? E|? E Hw|? E Hst|? E Hst| | |? E]; subst; simpl;
    try rewrite E in Hpc; split; try reflexivity; simpl in *; try lia.
  - destruct Hw as [Hw|Hw]; [left; exact Hw | right; lia].
  - destruct Hpc as [Hpc|Hpc]; [congruence | exact Hpc].
  - destruct (f_pc s); try lia; destruct Hpc; [left; assumption | right; lia].
  - destruct (f_pc s); auto.
Qed.

(** Once a refresh cycle has started at clock [c], the callback is not
    called again before [c] plus the interval: a [stop()] only ever ends
    the loop. *)
Theorem refresh_cycles_spaced :
  forall cl s ls s',
    freach cl s -> f_pc s = Pc_in_cycle ->
    fsteps s ls s' -> f_pc s' = Pc_call ->
    f_clock s + cl * 60 <= f_clock s'.
Proof.
  intros cl s ls s' Hr Hpc Hs Hpc'.
  pose proof (fsteps_clock_mono _ _ _ Hs) as Hmono.
  destruct (Z_lt_le_dec (cl * 60) 0) as [Hneg|Hpos]; [lia|].
  assert (Hinv : rate_inv (f_clock s) (cl * 60) s).
  { split; [exact (freach_cache_length _ _ Hr)|]. rewrite Hpc; lia. }
  clear Hr Hmono Hpc. revert Hinv. generalize (f_clock s) as c0.
  induction Hs as [s|s l s1 ls s2 Hst _ IH]; intros c0 Hinv.
  - destruct Hinv as [_ Hi]. rewrite Hpc' in Hi. exact Hi.
  - apply IH; [exact Hpc'|]. exact (fstep_rate_inv _ _ _ _ _ Hpos Hinv Hst).
Qed.

(** * Concrete runs of the further properties *)

Lemma pager_requests_consecutive_offsets_witness :
  pager_run 3 cfg0 srv_page2_fails pager_init = Some (run_of 3 srv_page2_fails)
  /\ exists n, pager_requests (run_of 3 srv_page2_fails)
               = map (fun j => list_page_request cfg0 (100 * Z.of_nat j)) (seq 0 n).
Proof.
  assert (E : pager_run 3 cfg0 srv_page2_fails pager_init = Some (run_of 3 srv_page2_fails))
    by (vm_compute; reflexivity).
  split; [exact E | exact (pager_requests_consecutive_offsets cfg0 srv_page2_fails 3 _ E)].
Defined.


(** Starting from the leftover of one raised cycle, a second cycle raises
    after page 0 too; the completed cycle that follows, against a server
    holding the same single bookmark, installs it three times. *)
Lemma leftover_items_reinstalled_witness :
  fetch_index_items 3 srv_page2_down plugin_leftover
  = Some (plugin_after 3 srv_page2_down plugin_leftover, Some Exn_transport)
  /\ fetch_index_items 3 srv_no_total (plugin_after 3 srv_page2_down plugin_leftover)
     = Some (plugin_after 3 srv_no_total (plugin_after 3 srv_page2_down plugin_leftover), None)
  /\ pl_installed (plugin_after 3 srv_no_total (plugin_after 3 srv_page2_down plugin_leftover))
     = map (to_index_item cfg0) [bk "a"; bk "a"; bk "a"].
Proof.
  assert (F1 : fetch_index_items 3 srv_page2_down plugin_leftover
               = Some (plugin_after 3 srv_page2_down plugin_leftover, Some Exn_transport))
    by (vm_compute; reflexivity).
  assert (F2 : fetch_index_items 3 srv_no_total (plugin_after 3 srv_page2_down plugin_leftover)
               = Some (plugin_after 3 srv_no_total (plugin_after 3 srv_page2_down plugin_leftover),
                       None))
    by (vm_compute; reflexivity).
  split; [exact F1|]. split; [exact F2|].
  exact (leftover_items_reinstalled 3 srv_page2_down srv_no_total plugin_leftover _ _
           [(list_page_request cfg0 0, [bk "a"])] (list_page_request cfg0 100) Exn_transport
           [(list_page_request cfg0 0, [bk "a"])] End_exhausted
           ltac:(vm_compute; reflexivity) ltac:(vm_compute; reflexivity) F1 F2).
Defined.

Lemma installed_items_from_server_witness :
  fetch_index_items 4 srv_250 plugin_fresh = Some (plugin_after 4 srv_250 plugin_fresh, None)
  /\ pl_installed (plugin_after 4 srv_250 plugin_fresh) <> []
  /\ (forall it, In it (pl_installed (plugin_after 4 srv_250 plugin_fresh)) ->
        exists rq st h body b,
          srv_250 rq = Response st h body /\ resp_ok st = true /\ In b body
          /\ it = to_index_item cfg0 b).
Proof.
  assert (F : fetch_index_items 4 srv_250 plugin_fresh
              = Some (plugin_after 4 srv_250 plugin_fresh, None)) by (vm_compute; reflexivity).
  split; [exact F|]. split; [vm_compute; discriminate|].
  exact (installed_items_from_server 4 srv_250 plugin_fresh _ eq_refl F).
Defined.

(** With an item left over, a 500 on the first page installs that item. *)
Lemma first_page_error_clears_index_witness :
  fetch_index_items 1 srv_500 plugin_leftover
  = Some (mk_plugin cfg0 [] (map (to_index_item cfg0) [bk "a"])
            [break_warning (list_page_request cfg0 0) 500; Log_info 1], None).
Proof.
  exact (first_page_error_clears_index 1 srv_500 plugin_leftover 500 [] []
           ltac:(lia) eq_refl eq_refl).
Defined.

Lemma letter_in_total_count_raises_witness :
  has_ascii_letter "1e3" = true
  /\ fetch_index_items 5 srv_bad_total plugin_leftover
     = Some (plugin_leftover, Some Exn_value_error).
Proof.
  split; [reflexivity|].
  exact (letter_in_total_count_raises 5 srv_bad_total plugin_leftover 200
           [("Total-Count", "1e3")] [bk "a"] "1e3" ltac:(lia) eq_refl eq_refl eq_refl eq_refl).
Defined.

Lemma open_in_readeck_url_witness :
  bm_href (bk "abc") = "http://localhost:8000" ++ "/api" ++ "/bookmarks/abc"
  /\ act_op (hd (mk_action "" "" Op_fetch_index_items) (si_actions (gen_item cfg0 (bk "abc"))))
     = Op_open_url "http://localhost:8000/bookmarks/abc".
Proof.
  split; [reflexivity|].
  exact (open_in_readeck_url cfg0 (bk "abc") "http://localhost:8000" "/bookmarks/abc"
           eq_refl eq_refl).
Defined.

Lemma cache_length_setter_clamps_witness :
  sc_ui sched_restarted = Ui_idle
  /\ sc_cache_length sched_restarted = 1
  /\ th_cache_length (sc_current sched_restarted) = 1.
Proof.
  destruct (cache_length_setter_clamps _ _ _ _ _ set_cache_length_stops stopping_restarts
              ltac:(repeat constructor)) as (_ & _ & _ & _ & Hc & Hth).
  split; [reflexivity|]. split; [exact Hc | exact (Hth eq_refl)].
Defined.

Lemma negative_stored_cache_length_no_wait_witness :
  sc_cache_length (sched_init None None (Some (-3))) = -3
  /\ (forall s s', freach (th_cache_length (sc_current (sched_init None None (Some (-3))))) s ->
        fstep s L_wait s' -> fstep s' L_wake (set_pc s' Pc_check)).
Proof.
  destruct (negative_stored_cache_length_no_wait None None (-3) ltac:(lia)) as [H1 [_ H3]].
  split; [exact H1 | exact H3].
Defined.

(** A fetcher with a one-minute interval: its first cycle, then the wait
    running to its end and the next call. *)
Definition fetcher_cycle1 : fetcher := mk_fetcher Pc_in_cycle false 60 0 0 1.

Definition fetcher_next_call : fetcher := mk_fetcher Pc_call false 60 60 60 1.

Definition wait_labels : list flabel :=
  ([L_return; L_wait] ++ repeat L_tick 60 ++ [L_wake; L_continue])%list.

Lemma freach_cycle1 : freach 1 fetcher_cycle1.
Proof.
  exists [L_call]. eapply fsteps_cons; [apply fs_call; reflexivity|]. apply fsteps_nil.
Qed.

Lemma fsteps_cycle1 : fsteps fetcher_cycle1 wait_labels fetcher_next_call.
Proof.
  unfold wait_labels.
  eapply fsteps_cons; [apply fs_return; reflexivity|].
  eapply fsteps_cons; [apply fs_wait; reflexivity|].
  apply (fsteps_app _ _ (mk_fetcher Pc_waiting false 60 60 60 1)).
  { exact (fsteps_ticks 60 Pc_waiting false 60 0 60 1). }
  eapply fsteps_cons; [apply fs_wake; [reflexivity | right; cbn; lia]|].
  eapply fsteps_cons; [apply fs_continue; reflexivity|]. apply fsteps_nil.
Qed.

Lemma refresh_cycles_spaced_witness :
  f_pc fetcher_next_call = Pc_call
  /\ f_clock fetcher_cycle1 + 1 * 60 <= f_clock fetcher_next_call.
Proof.
  split; [reflexivity|].
  exact (refresh_cycles_spaced 1 fetcher_cycle1 wait_labels fetcher_next_call
           freach_cycle1 eq_refl fsteps_cycle1 eq_refl).
Defined.
